(** * neutron_lib.db.api: the transactional retry coordinator

    A shallow embedding of [neutron_lib/db/api.py] and the properties of its
    error classifier, retry decorators, exception converter, event registry,
    context-manager accessor and commit-time relationship loader.

    Python objects are values that carry their identity; a call is a function
    from the world it runs in to its outcome and the world it leaves. *)

From Stdlib Require Import List String Ascii Bool Arith ZArith Lia.
Import ListNotations.
Open Scope string_scope.
Open Scope list_scope.

Set Implicit Arguments.
Set Warnings "-register-all".

(* ===================================================================== *)
(** * Python values and exception objects *)
(* ===================================================================== *)

(** A class, known by its qualified name. *)
Definition pyclass := string.

(** The values a call receives.  Lists, dicts and sets are mutable and
    carry their identity ([id(x)]); any other object (a context, a session,
    [self]) is known by its identity alone. *)
Inductive pyval : Type :=
| VNone
| VBool (b : bool)
| VInt (z : Z)
| VStr (s : string)
| VTuple (items : list pyval)
| VList (id : nat) (items : list pyval)
| VDict (id : nat) (items : list (pyval * pyval))
| VSet (id : nat) (items : list pyval)
| VObj (id : nat).

(** Python's truth value of an object. *)
Definition truthy (v : pyval) : bool :=
  match v with
  | VNone => false
  | VBool b => b
  | VInt z => negb (Z.eqb z 0)
  | VStr s => negb (String.eqb s "")
  | VTuple items | VList _ items | VSet _ items =>
      match items with [] => false | _ => true end
  | VDict _ items => match items with [] => false | _ => true end
  | VObj _ => true
  end.

(** Structural induction over a value and the values held in it. *)
Section pyval_nested_ind.
Variable P : pyval -> Prop.
Hypothesis case_none : P VNone.
Hypothesis case_bool : forall b, P (VBool b).
Hypothesis case_int : forall z, P (VInt z).
Hypothesis case_str : forall s, P (VStr s).
Hypothesis case_tuple : forall items, Forall P items -> P (VTuple items).
Hypothesis case_list : forall id items, Forall P items -> P (VList id items).
Hypothesis case_dict :
  forall id items,
    Forall (fun kv => P (fst kv) /\ P (snd kv)) items -> P (VDict id items).
Hypothesis case_set : forall id items, Forall P items -> P (VSet id items).
Hypothesis case_obj : forall id, P (VObj id).

End pyval_nested_ind.

(** An instance of [Exception].  [e_mro] lists the classes the object is an
    instance of (its class and that class's bases), [Exception],
    [BaseException] and [object] going without saying; the other fields are
    the attributes the module reads: [str(e)], [e._RETRY_EXCEEDED] when it
    is set, [e.inner_exceptions], [e.inner_exception] and [e.inner_exc]. *)
Inductive exn : Type :=
| Exn (mro : list pyclass) (str : string) (retry_exceeded : option pyval)
      (inner_exceptions : list exn) (inner_exception : option exn)
      (inner_exc : option exn).

Definition e_mro (e : exn) : list pyclass :=
  match e with Exn m _ _ _ _ _ => m end.
Definition str (e : exn) : string :=
  match e with Exn _ s _ _ _ _ => s end.
Definition e_retry_exceeded (e : exn) : option pyval :=
  match e with Exn _ _ f _ _ _ => f end.
Definition inner_exceptions (e : exn) : list exn :=
  match e with Exn _ _ _ l _ _ => l end.
Definition inner_exception (e : exn) : option exn :=
  match e with Exn _ _ _ _ i _ => i end.
Definition inner_exc (e : exn) : option exn :=
  match e with Exn _ _ _ _ _ i => i end.

(** [getattr(e, '_RETRY_EXCEEDED', default)]. *)
Definition getattr_RETRY_EXCEEDED (e : exn) (default : pyval) : pyval :=
  match e_retry_exceeded e with Some v => v | None => default end.

(** [setattr(e, '_RETRY_EXCEEDED', v)]: the same object, one attribute set. *)
Definition setattr_RETRY_EXCEEDED (e : exn) (v : pyval) : exn :=
  match e with Exn m s _ l i x => Exn m s (Some v) l i x end.

(** Structural induction over an exception and everything nested in it. *)
Section exn_nested_ind.
Variable P : exn -> Prop.
Hypothesis step :
    forall m s f l i x,
      Forall P l ->
      (forall c, i = Some c -> P c) ->
      (forall c, x = Some c -> P c) ->
      P (Exn m s f l i x).

Fixpoint exn_nested_ind (e : exn) : P e :=
    match e with
    | Exn m s f l i x =>
        step m s f
          ((fix all (l : list exn) : Forall P l :=
              match l with
              | [] => Forall_nil P
              | c :: t => Forall_cons c (exn_nested_ind c) (all t)
              end) l)
          (match i as o return forall c, o = Some c -> P c with
           | Some c' => fun c H =>
               match H in _ = y return match y with Some z => P z | None => True end
               with eq_refl => exn_nested_ind c' end
           | None => fun c H =>
               match H in _ = y return match y with Some z => P z | None => True end
               with eq_refl => I end
           end)
          (match x as o return forall c, o = Some c -> P c with
           | Some c' => fun c H =>
               match H in _ = y return match y with Some z => P z | None => True end
               with eq_refl => exn_nested_ind c' end
           | None => fun c H =>
               match H in _ = y return match y with Some z => P z | None => True end
               with eq_refl => I end
           end)
    end.
End exn_nested_ind.

(** The classes the module names. *)
Module exceptions.
Definition MultipleExceptions : pyclass := "neutron_lib.exceptions.MultipleExceptions".
End exceptions.

Module db_exc.
Definition DBError : pyclass := "oslo_db.exception.DBError".
Definition DBDeadlock : pyclass := "oslo_db.exception.DBDeadlock".
Definition DBConnectionError : pyclass := "oslo_db.exception.DBConnectionError".
Definition DBDuplicateEntry : pyclass := "oslo_db.exception.DBDuplicateEntry".
Definition RetryRequest : pyclass := "oslo_db.exception.RetryRequest".
End db_exc.

Module exc.
Definition StaleDataError : pyclass := "sqlalchemy.orm.exc.StaleDataError".
End exc.

Module obj_exc.
Definition NeutronDbObjectDuplicateEntry : pyclass :=
    "neutron_lib.objects.exceptions.NeutronDbObjectDuplicateEntry".
End obj_exc.

(** The classes every exception is an instance of. *)
Definition exception_bases : list pyclass :=
  ["Exception"; "BaseException"; "object"].

(** [isinstance(e, etypes)] for a tuple of classes (a single class is the
    tuple of length one). *)
Definition isinstance (e : exn) (etypes : list pyclass) : bool :=
  existsb (fun t => existsb (String.eqb t) (e_mro e ++ exception_bases)) etypes.

(** [needle in hay] on strings. *)
Fixpoint str_contains (needle hay : string) : bool :=
  if String.prefix needle hay then true
  else match hay with
       | EmptyString => false
       | String _ rest => str_contains needle rest
       end.

(* ===================================================================== *)
(** * The error classifier *)
(* ===================================================================== *)

(** Check if exception or its inner excepts are an instance of etypes. *)
Fixpoint _is_nested_instance (e : exn) (etypes : list pyclass) : bool :=
  match e with
  | Exn _ _ _ inner_exceptions inner_exception _ =>
      if isinstance e etypes then true
      else if isinstance e [exceptions.MultipleExceptions] then
        existsb (fun i => _is_nested_instance i etypes) inner_exceptions
      else if isinstance e [db_exc.DBError] then
        match inner_exception with
        | Some i => _is_nested_instance i etypes
        | None => false
        end
      else false
  end.

(** The structured transient kinds [is_retriable] looks for. *)
Definition RETRIABLE_KINDS : list pyclass :=
  [db_exc.DBDeadlock; exc.StaleDataError; db_exc.DBConnectionError;
   db_exc.DBDuplicateEntry; db_exc.RetryRequest;
   obj_exc.NeutronDbObjectDuplicateEntry].

(** Determine if the exception is retriable. *)
Definition is_retriable (e : exn) : bool :=
  if truthy (getattr_RETRY_EXCEEDED e (VBool false)) then false
  else if _is_nested_instance e RETRIABLE_KINDS then true
  else _is_nested_instance e [db_exc.DBError] && str_contains "1305" (str e).

(* ===================================================================== *)
(** * Calls, worlds and outcomes *)
(* ===================================================================== *)

(** How a call ends: it returns, it raises an [Exception], or it raises a
    [BaseException] that is no [Exception] (KeyboardInterrupt, SystemExit),
    which no [except Exception] clause of the module catches. *)
Inductive outcome (A : Type) : Type :=
| Return (v : A)
| Raise (e : exn)
| RaiseBase (name : string).

Arguments Return {A} v.
Arguments Raise {A} e.
Arguments RaiseBase {A} name.

(** The world a call runs in: the allocator of object identities (every
    identity below [next_id] is taken), the debug log, the contexts whose
    session is inside a transaction, and whatever else the unit of work
    touches. *)
Record world (U : Type) : Type := World {
  next_id : nat;
  debug_log : list string;
  active_sessions : list nat;
  user : U
}.

Arguments World {U}.

Definition set_next_id {U} (w : world U) (n : nat) : world U :=
  World n (debug_log w) (active_sessions w) (user w).

Definition set_user {U V} (w : world U) (v : V) : world V :=
  World (next_id w) (debug_log w) (active_sessions w) v.

(** [LOG.debug(msg)]. *)
Definition LOG_debug {U} (msg : string) (w : world U) : world U :=
  World (next_id w) (debug_log w ++ [msg]) (active_sessions w) (user w).

Definition call (U A : Type) : Type := world U -> outcome A * world U.

(** A callable taking [*args] and [**kwargs]. *)
Definition pyfun (U : Type) : Type :=
  list pyval -> list (string * pyval) -> call U pyval.

(** A function object: its positional parameter names, as
    [getargspec(f).args] lists them, and what calling it does. *)
Record pyfunction (U : Type) : Type := PyFunction {
  argnames : list string;
  body : pyfun U
}.

(** A new exception object of class [cls] whose message is [msg]. *)
Definition new_exn (cls : pyclass) (msg : string) : exn :=
  Exn [cls] msg None [] None None.

(* ===================================================================== *)
(** * Copying arguments *)
(* ===================================================================== *)

(** [copy.deepcopy(v)], allocating from [n]: immutable atoms are shared,
    tuples are rebuilt around the copies of their items, and every list,
    dict and set is rebuilt as a new object around the copies of its items.
    Returns the copy and the allocator after it.  Three things are left
    out: the memo that lets an object met twice be copied once; the
    objects [copy.deepcopy] hands back as they are (classes, functions),
    every other object being taken as rebuilt; and the objects it cannot
    copy, for which it raises.  What is proved of the copies is stated of
    lists, dicts and sets, and of the calls that are made. *)
Fixpoint deepcopy (v : pyval) (n : nat) : pyval * nat :=
  let copy_items :=
    fix copy_items (l : list pyval) (n : nat) : list pyval * nat :=
      match l with
      | [] => ([], n)
      | x :: t =>
          let (x', n1) := deepcopy x n in
          let (t', n2) := copy_items t n1 in
          (x' :: t', n2)
      end in
  match v with
  | VNone | VBool _ | VInt _ | VStr _ => (v, n)
  | VTuple items =>
      let (items', n') := copy_items items n in (VTuple items', n')
  | VList _ items =>
      let (items', n') := copy_items items (S n) in (VList n items', n')
  | VSet _ items =>
      let (items', n') := copy_items items (S n) in (VSet n items', n')
  | VDict _ items =>
      let (items', n') :=
        (fix copy_pairs (l : list (pyval * pyval)) (n : nat)
           : list (pyval * pyval) * nat :=
           match l with
           | [] => ([], n)
           | (k, x) :: t =>
               let (k', n1) := deepcopy k n in
               let (x', n2) := deepcopy x n1 in
               let (t', n3) := copy_pairs t n2 in
               ((k', x') :: t', n3)
           end) items (S n) in
      (VDict n items', n')
  | VObj _ => (VObj n, S n)
  end.



(** [isinstance(item, (list, dict, set))]. *)
Definition is_lds (item : pyval) : bool :=
  match item with
  | VList _ _ | VDict _ _ | VSet _ _ => true
  | _ => false
  end.

(** Deepcopy lists/dicts/sets, leave everything else alone. *)
Definition _copy_if_lds (item : pyval) (n : nat) : pyval * nat :=
  if is_lds item then deepcopy item n else (item, n).

(** [[_copy_if_lds(a) for a in args]]. *)
Fixpoint dup_args (args : list pyval) (n : nat) : list pyval * nat :=
  match args with
  | [] => ([], n)
  | a :: rest =>
      let (a', n1) := _copy_if_lds a n in
      let (rest', n2) := dup_args rest n1 in
      (a' :: rest', n2)
  end.

(** [{k: _copy_if_lds(v) for k, v in kwargs.items()}]. *)
Fixpoint dup_kwargs (kwargs : list (string * pyval)) (n : nat)
  : list (string * pyval) * nat :=
  match kwargs with
  | [] => ([], n)
  | (k, v) :: rest =>
      let (v', n1) := _copy_if_lds v n in
      let (rest', n2) := dup_kwargs rest n1 in
      ((k, v') :: rest', n2)
  end.

(* ===================================================================== *)
(** * The retry decorators *)
(* ===================================================================== *)

Definition MAX_RETRIES : nat := 20.

(** Puts a flag on retriable exceptions so is_retriable returns False.
    [save_and_reraise_exception] re-raises the exception it was entered
    with once its block is done. *)
Definition _tag_retriables_as_unretriable {U} (f : pyfun U) : pyfun U :=
  fun args kwargs w =>
    match f args kwargs w with
    | (Raise e, w') =>
        if is_retriable e
        then (Raise (setattr_RETRY_EXCEEDED e (VBool true)), w')
        else (Raise e, w')
    | r => r
    end.

(** Modelled from the spec: [oslo_db.api.wrap_db_retry], the decorator
    [_retry_db_errors] is built from, is not among the sources.  Section 4.3:
    "Retry policy: up to a fixed maximum of 20 attempts, [...] gated by the
    Error Classifier", and section 7: "retried locally up to the bound, then
    re-raised".  [more] is the number of attempts still allowed after the
    one being made; the backoff between attempts only passes time. *)
Fixpoint retry_attempts {U} (more : nat) (exception_checker : exn -> bool)
  (f : pyfun U) (args : list pyval) (kwargs : list (string * pyval))
  (w : world U) : outcome pyval * world U :=
  match f args kwargs w with
  | (Raise e, w') =>
      match more with
      | S more' =>
          if exception_checker e
          then retry_attempts more' exception_checker f args kwargs w'
          else (Raise e, w')
      | O => (Raise e, w')
      end
  | r => r
  end.

(** Modelled from the spec: [wrap_db_retry(max_retries, exception_checker)]
    allows [max_retries] attempts in all (section 4.3, as above). *)
Definition wrap_db_retry {U} (max_retries : nat)
  (exception_checker : exn -> bool) (f : pyfun U) : pyfun U :=
  retry_attempts (max_retries - 1) exception_checker f.

Definition _retry_db_errors {U} : pyfun U -> pyfun U :=
  wrap_db_retry MAX_RETRIES is_retriable.

(** The [except Exception] clause of the innermost function of
    [retry_db_errors]: a retriable exception is logged, and every exception
    is re-raised. *)
Definition log_retriable {U} (r : outcome pyval * world U)
  : outcome pyval * world U :=
  match r with
  | (Raise e, w') =>
      if is_retriable e
      then (Raise e,
            LOG_debug ("Retry wrapper got retriable exception: " ++ str e) w')
      else (Raise e, w')
  | r => r
  end.

(** The innermost function of [retry_db_errors]: copy mutable args and
    kwargs to make retries safe and call [f] on the copies. *)
Definition wrapped_with_copies {U} (f : pyfun U) : pyfun U :=
  fun args kwargs w =>
    let (args', n1) := dup_args args (next_id w) in
    let (kwargs', n2) := dup_kwargs kwargs n1 in
    log_retriable (f args' kwargs' (set_next_id w n2)).

(** Nesting-safe retry decorator with auto-arg-copy and logging. *)
Definition retry_db_errors {U} (f : pyfun U) : pyfun U :=
  _tag_retriables_as_unretriable (_retry_db_errors (wrapped_with_copies f)).

(* ===================================================================== *)
(** * The context-sensitive gate *)
(* ===================================================================== *)

(** [names.index(name)]: the first position of [name], if any. *)
Fixpoint list_index (name : string) (names : list string) : option nat :=
  match names with
  | [] => None
  | x :: rest =>
      if String.eqb x name then Some 0
      else option_map S (list_index name rest)
  end.

(** [kwargs[name]] when [name in kwargs]. *)
Fixpoint kwargs_get (name : string) (kwargs : list (string * pyval))
  : option pyval :=
  match kwargs with
  | [] => None
  | (k, v) :: rest => if String.eqb k name then Some v else kwargs_get name rest
  end.

(** [context.session.is_active], read in world [w]; [None] when the object
    has no session to ask. *)
Definition session_is_active {U} (w : world U) (context : pyval) : option bool :=
  match context with
  | VObj c => Some (existsb (Nat.eqb c) (active_sessions w))
  | _ => None
  end.

(** The context argument of a call: by keyword when given so, else by
    position. *)
Definition locate_context (context_var_name : string) (ctx_arg_index : nat)
  (args : list pyval) (kwargs : list (string * pyval)) : option pyval :=
  match kwargs_get context_var_name kwargs with
  | Some context => Some context
  | None => nth_error args ctx_arg_index
  end.

(** Retries only if the session in the context is inactive.  Decorating
    fails at once when [f] has no parameter of that name. *)
Definition retry_if_session_inactive {U} (context_var_name : string)
  (f : pyfunction U) : exn + pyfun U :=
  match list_index context_var_name (argnames f) with
  | None =>
      inl (new_exn "RuntimeError"
             ("Could not find position of var " ++ context_var_name))
  | Some ctx_arg_index =>
      let f_with_retry := retry_db_errors (body f) in
      inr (fun args kwargs w =>
             match locate_context context_var_name ctx_arg_index args kwargs with
             | None => (Raise (new_exn "IndexError" "tuple index out of range"), w)
             | Some context =>
                 match session_is_active w context with
                 | None => (Raise (new_exn "AttributeError" "session"), w)
                 | Some true => body f args kwargs w
                 | Some false => f_with_retry args kwargs w
                 end
             end)
  end.

(* ===================================================================== *)
(** * The exception-to-retry converter *)
(* ===================================================================== *)

(** [db_exc.RetryRequest(e)]: the request carries [e] as its [inner_exc]
    (and as its only argument, so it prints as [e] does). *)
Definition RetryRequest_of (e : exn) : exn :=
  Exn [db_exc.RetryRequest] (str e) None [] None (Some e).

(** Contextually reraise Exceptions as a RetryRequests: [block] is the body
    of the [with] statement. *)
Definition exc_to_retry {U A} (etypes : list pyclass) (block : call U A)
  : call U A :=
  fun w =>
    match block w with
    | (Raise e, w') =>
        if _is_nested_instance e etypes
        then (Raise (RetryRequest_of e), w')
        else (Raise e, w')
    | r => r
    end.

(* ===================================================================== *)
(** * The event registry *)
(* ===================================================================== *)

(** One argument of a [listen] call: an object (the target, the handler),
    compared by identity, or a string (the event name). *)
Inductive listen_arg : Type :=
| ARef (id : nat)
| AName (s : string).

Definition listen_arg_eqb (a b : listen_arg) : bool :=
  match a, b with
  | ARef i, ARef j => Nat.eqb i j
  | AName s, AName t => String.eqb s t
  | _, _ => false
  end.

(** [==] on argument tuples. *)
Fixpoint args_eqb (a b : list listen_arg) : bool :=
  match a, b with
  | [], [] => true
  | x :: a', y :: b' => listen_arg_eqb x y && args_eqb a' b'
  | _, _ => false
  end.

(** [l.remove(x)]: drop the first item equal to [x]; [None] stands for the
    [ValueError] raised when there is none. *)
Fixpoint list_remove (x : list listen_arg) (l : list (list listen_arg))
  : option (list (list listen_arg)) :=
  match l with
  | [] => None
  | y :: rest =>
      if args_eqb y x then Some rest
      else option_map (cons y) (list_remove x rest)
  end.

(** The keys SQLAlchemy's event registry holds, one for each target,
    event name and handler listened with, and the module's own record of
    the subscriptions made through [sqla_listen]; a subscription is the
    tuple of arguments both [event.listen] and [event.remove] take.  The
    handlers attached to a dispatcher are not followed. *)
Record registry : Type := Registry {
  listeners : list (list listen_arg);
  _REGISTERED_SQLA_EVENTS : list (list listen_arg)
}.

(** Modelled from the spec: [sqlalchemy.event.listen] is not among the
    sources.  Section 4.8: [register] "attaches a low-level event
    subscription".  The registry takes the key of the subscription, which
    it holds once however often it is listened with. *)
Definition event_listen (args : list listen_arg) (ls : list (list listen_arg))
  : list (list listen_arg) :=
  if existsb (fun y => args_eqb y args) ls then ls else ls ++ [args].

(** Modelled from the spec: [sqlalchemy.event.remove] is not among the
    sources.  Section 4.8 has [unregister_all] tolerate "already removed"
    errors, which the source catches as [InvalidRequestError].  The
    registry gives the key up; [None] stands for the [InvalidRequestError]
    raised for a key it does not hold. *)
Definition event_remove (args : list listen_arg) (ls : list (list listen_arg))
  : option (list (list listen_arg)) :=
  list_remove args ls.

(** Wrapper to track subscribers for test teardowns. *)
Definition sqla_listen (args : list listen_arg) (r : registry) : registry :=
  Registry (event_listen args (listeners r))
           (_REGISTERED_SQLA_EVENTS r ++ [args]).

(** Remove SQLA listeners. *)
Definition sqla_remove (args : list listen_arg) (r : registry)
  : outcome unit * registry :=
  match event_remove args (listeners r) with
  | None =>
      (Raise (new_exn "sqlalchemy.exc.InvalidRequestError" "No listeners found"), r)
  | Some ls' =>
      let r' := Registry ls' (_REGISTERED_SQLA_EVENTS r) in
      match list_remove args (_REGISTERED_SQLA_EVENTS r) with
      | None => (Raise (new_exn "ValueError" "list.remove(x): x not in list"), r')
      | Some evs' => (Return tt, Registry ls' evs')
      end
  end.

(** Removes all SQLA listeners. *)
Definition sqla_remove_all (r : registry) : registry :=
  Registry
    (fold_left
       (fun ls args =>
          match event_remove args ls with
          | Some ls' => ls'
          | None => ls (* already removed *)
          end)
       (_REGISTERED_SQLA_EVENTS r) (listeners r))
    [].

(* ===================================================================== *)
(** * The transaction context manager *)
(* ===================================================================== *)

(** The module's global and what [enginefacade] has been asked to do: the
    number of transaction contexts constructed so far (contexts are known by
    the order of their construction) and the [configure] calls made, each
    with the context it was made on and its keyword arguments. *)
Record facade : Type := Facade {
  _CTX_MANAGER : option nat;
  constructed : nat;
  configure_calls : list (nat * list (string * bool))
}.

(** The module as it is when its first statement runs. *)
Definition facade_at_import : facade := Facade None 0 [].

Definition _create_context_manager (s : facade) : nat * facade :=
  match _CTX_MANAGER s with
  | None =>
      let m := constructed s in
      (m, Facade (Some m) (S (constructed s))
             (configure_calls s ++
                [(m, [("sqlite_fk", true); ("flush_on_subtransaction", true)])]))
  | Some m => (m, s)
  end.

(** Transaction Context Manager accessor. *)
Definition get_context_manager (s : facade) : nat * facade :=
  match _CTX_MANAGER s with
  | None => _create_context_manager s
  | Some m => (m, s)
  end.

(** [n] calls of the accessor in a row: the managers returned, and the
    module after them. *)
Fixpoint get_context_manager_times (n : nat) (s : facade) : list nat * facade :=
  match n with
  | O => ([], s)
  | S n' =>
      let (m, s1) := get_context_manager s in
      let (ms, s2) := get_context_manager_times n' s1 in
      (m :: ms, s2)
  end.

(* ===================================================================== *)
(** * The commit-time relationship loader *)
(* ===================================================================== *)

(** A relationship of a mapper: the attribute it fills and its loading
    strategy. *)
Record relationship : Type := Relationship {
  key : string;
  lazy : string
}.

(** What the hooks read and write of a session.  Objects are known by their
    identity: [new] are the pending new objects, [contents] the objects for
    which [obj in session] holds, [_load_rels] is
    [session.info.get('_load_rels')], [relationships o] is
    [inspect(o).mapper.relationships], [state_dict o] the keys of
    [inspect(o).dict], [loading_enabled] the objects
    [enable_relationship_loading] was called on and [loads] the attribute
    loads forced so far. *)
Record session : Type := Session {
  new : list nat;
  contents : list nat;
  nested : bool;
  _load_rels : option (list nat);
  relationships : nat -> list relationship;
  state_dict : nat -> list string;
  loading_enabled : list nat;
  loads : list (nat * string)
}.

Definition mem_nat (x : nat) (l : list nat) : bool := existsb (Nat.eqb x) l.
Definition mem_str (x : string) (l : list string) : bool := existsb (String.eqb x) l.

(** [s.update(items)] on a set kept as a duplicate-free list. *)
Definition set_update (s items : list nat) : list nat :=
  fold_left (fun acc x => if mem_nat x acc then acc else acc ++ [x]) items s.

(** The after_flush listener: keep track of new items to load
    relationships on during commit.  The set is a weak one; the objects in
    it are taken to stay alive until the commit. *)
Definition _add_to_rel_load_list (s : session) : session :=
  Session (new s) (contents s) (nested s)
    (Some (set_update (match _load_rels s with Some l => l | None => [] end)
             (new s)))
    (relationships s) (state_dict s) (loading_enabled s) (loads s).

(** [session.flush()] with pending new objects: the after_flush listener
    runs while [session.new] still lists them, then they are pending no
    more; they stay in the session. *)
Definition flush (s : session) : session :=
  let s1 := _add_to_rel_load_list s in
  Session [] (contents s1) (nested s1) (_load_rels s1)
    (relationships s1) (state_dict s1) (loading_enabled s1) (loads s1).

(** [session.info.pop('_load_rels', [])]. *)
Definition pop_load_rels (s : session) : list nat * session :=
  (match _load_rels s with Some l => l | None => [] end,
   Session (new s) (contents s) (nested s) None
     (relationships s) (state_dict s) (loading_enabled s) (loads s)).

Definition enable_relationship_loading (o : nat) (s : session) : session :=
  Session (new s) (contents s) (nested s) (_load_rels s)
    (relationships s) (state_dict s) (o :: loading_enabled s) (loads s).

(** [relationship_attr.lazy not in ('joined', 'subquery')], negated. *)
Definition eager (rel : relationship) : bool :=
  mem_str (lazy rel) ["joined"; "subquery"].

Section Loader.

(** Whether the lazy loader, run for attribute [k] of object [o] in session
    [s], leaves the attribute in the object's [state.dict]. *)
Variable lazy_load : nat -> string -> session -> bool.

(** [getattr(new_object, k)] on an attribute that is not loaded yet: the
    load is noted and the attribute is in [state.dict] or not.  A load may
    also flush changes pending in the session; that flush and what its
    listeners do to [session.new] and to ['_load_rels'] are not followed,
    and nothing proved below is about either of them once a load was
    forced. *)
Definition getattr_relationship (o : nat) (k : string) (s : session) : session :=
  Session (new s) (contents s) (nested s) (_load_rels s) (relationships s)
    (if lazy_load o k s
     then fun o' => if Nat.eqb o' o then k :: state_dict s o' else state_dict s o'
     else state_dict s)
    (loading_enabled s) (loads s ++ [(o, k)]).

(** The body of the loop over [state.mapper.relationships]. *)
Definition load_relationship (o : nat) (rel : relationship) (s : session)
  : outcome unit * session :=
  if negb (eager rel) then (Return tt, s)
  else if mem_str (key rel) (state_dict s o) then (Return tt, s)
  else
    let s1 := getattr_relationship o (key rel) s in
    if mem_str (key rel) (state_dict s1 o) then (Return tt, s1)
    else (Raise (new_exn "AssertionError"
                   ("Relationship " ++ key rel ++
                    " attributes must be loaded in db object")), s1).

Fixpoint load_relationships (o : nat) (rels : list relationship) (s : session)
  : outcome unit * session :=
  match rels with
  | [] => (Return tt, s)
  | rel :: rest =>
      match load_relationship o rel s with
      | (Return _, s1) => load_relationships o rest s1
      | stop => stop
      end
  end.

(** The body of the loop over the captured objects. *)
Definition load_object (new_object : nat) (s : session) : outcome unit * session :=
  if negb (mem_nat new_object (contents s)) then (Return tt, s)
  else
    let s1 := enable_relationship_loading new_object s in
    load_relationships new_object (relationships s1 new_object) s1.

Fixpoint load_objects (objs : list nat) (s : session) : outcome unit * session :=
  match objs with
  | [] => (Return tt, s)
  | o :: rest =>
      match load_object o s with
      | (Return _, s1) => load_objects rest s1
      | stop => stop
      end
  end.

(** The before_commit listener. *)
Definition _load_one_to_manys (s : session) : outcome unit * session :=
  let s1 := match new s with [] => s | _ => flush s end in
  if nested s1 then (Return tt, s1)
  else
    let (objs, s2) := pop_load_rels s1 in
    load_objects objs s2.

End Loader.

(* ===================================================================== *)
(** * The session accessors *)
(* ===================================================================== *)

(** The two sides of a transaction context. *)
Inductive facade_side : Type :=
| reader
| writer.

(** The module with the sessions its accessors have made: a session is
    known by the order of its making, and remembers the manager and the
    side whose sessionmaker made it. *)
Record db_api : Type := DbApi {
  facade_state : facade;
  sessions : list (nat * facade_side)
}.

(** [get_context_manager().<side>.get_sessionmaker()()]: the manager is
    looked up through the accessor and its sessionmaker is called once. *)
Definition get_session (side : facade_side) (s : db_api) : nat * db_api :=
  let (m, f) := get_context_manager (facade_state s) in
  (List.length (sessions s), DbApi f (sessions s ++ [(m, side)])).

(** Helper to get reader session. *)
Definition get_reader_session : db_api -> nat * db_api := get_session reader.

(** Helper to get writer session. *)
Definition get_writer_session : db_api -> nat * db_api := get_session writer.

(* ===================================================================== *)
(** * Notions the properties are stated with *)
(* ===================================================================== *)

(** An exception is, or transitively wraps, an instance of [etypes]:
    directly, through the inner exceptions of a "multiple exceptions"
    aggregate, or through the inner cause of a database-error wrapper. *)
Inductive wraps (etypes : list pyclass) : exn -> Prop :=
| wraps_itself e :
    isinstance e etypes = true -> wraps etypes e
| wraps_in_aggregate e i :
    isinstance e [exceptions.MultipleExceptions] = true ->
    In i (inner_exceptions e) ->
    wraps etypes i ->
    wraps etypes e
| wraps_in_dberror e i :
    isinstance e [db_exc.DBError] = true ->
    inner_exception e = Some i ->
    wraps etypes i ->
    wraps etypes e.

(** No object, at any depth, is an aggregate and a database-error wrapper at
    once: the two container classes have no common subclass. *)
Fixpoint distinct_containers (e : exn) : bool :=
  match e with
  | Exn _ _ _ l i _ =>
      negb (isinstance e [exceptions.MultipleExceptions] &&
            isinstance e [db_exc.DBError])
      && forallb distinct_containers l
      && match i with Some c => distinct_containers c | None => true end
  end.

(** The retry-exhaustion flag: [_RETRY_EXCEEDED] is set, to a true value. *)
Definition flagged (e : exn) : Prop :=
  exists v, e_retry_exceeded e = Some v /\ truthy v = true.

(** [_RETRY_EXCEEDED] is unset, or set to a false value. *)
Definition unflagged (e : exn) : Prop :=
  truthy (getattr_RETRY_EXCEEDED e (VBool false)) = false.

(** ** Sample objects *)

(** A deadlock inside an aggregate inside a database error, flagged. *)
Definition flagged_deadlock : exn :=
  Exn [db_exc.DBError] "DBError" (Some (VBool true)) []
      (Some (Exn [exceptions.MultipleExceptions] "" None
               [new_exn "ValueError" "bad value";
                Exn [db_exc.DBDeadlock; db_exc.DBError] "deadlock" None [] None None]
               None None))
      None.

(** A stale-data conflict two containers deep: an aggregate inside a
    database error inside an aggregate. *)
Definition nested_stale_data : exn :=
  Exn [exceptions.MultipleExceptions] "" None
      [new_exn "ValueError" "bad value";
       Exn [db_exc.DBError] "DBError" None []
           (Some (Exn [exceptions.MultipleExceptions] "" None
                    [Exn [exc.StaleDataError] "stale" None [] None None]
                    None None))
           None]
      None None.

(** The database error MySQL reports for a savepoint lost to a deadlock. *)
Definition savepoint_error : exn :=
  Exn [db_exc.DBError]
      "(pymysql.err.InternalError) (1305, u'SAVEPOINT sa_savepoint_1 does not exist')"
      None [] None None.

(* ===================================================================== *)
(** ** Identity and content of values *)
(* ===================================================================== *)













(** The arguments one call was made with. *)
Definition call_record : Type := (list pyval * list (string * pyval))%type.

(** [f] with a note of the arguments of each of its calls kept beside its
    own state, the way a test's mock keeps its [call_args_list]. *)
Definition recording_calls {U} (f : pyfun U) : pyfun (U * list call_record) :=
  fun args kwargs w =>
    let (r, w') := f args kwargs (set_user w (fst (user w))) in
    (r, set_user w' (user w', snd (user w) ++ [(args, kwargs)])).

Definition calls_seen {U} (w : world (U * list call_record))
  : list call_record :=
  snd (user w).






(** The allocator once the arguments of a call made at [n] are copied. *)
Definition allocator_after_copies (args : list pyval)
  (kwargs : list (string * pyval)) (n : nat) : nat :=
  snd (dup_kwargs kwargs (snd (dup_args args n))).

(** A call as the API layer makes it: a context, a list holding a list, a
    string, and a dict of filters by keyword. *)
Definition sample_args : list pyval :=
  [VObj 0; VList 1 [VInt 1; VList 2 []]; VStr "port"].

Definition sample_kwargs : list (string * pyval) :=
  [("filters", VDict 3 [(VStr "id", VSet 4 [VInt 7])]); ("limit", VInt 10)].

(* ===================================================================== *)
(** ** Counting the attempts *)
(* ===================================================================== *)

(** [f] with a counter of its calls kept beside its own state, the way a
    test's mock counts them. *)
Definition counting {U} (f : pyfun U) : pyfun (U * nat) :=
  fun args kwargs w =>
    let (r, w') := f args kwargs (set_user w (fst (user w))) in
    (r, set_user w' (user w', S (snd (user w)))).

Definition call_count {U} (w : world (U * nat)) : nat := snd (user w).

(** A unit of work that fails with a retriable exception whenever and
    however it is called. *)
Definition always_raises_retriable {U} (f : pyfun U) : Prop :=
  forall args kwargs w,
    exists e w', f args kwargs w = (Raise e, w') /\ is_retriable e = true.

(** A unit of work that always fails with a deadlock. *)
Definition deadlocked : pyfun unit :=
  fun _ _ w => (Raise (Exn [db_exc.DBDeadlock; db_exc.DBError] "deadlock"
                         None [] None None), w).

(** A unit of work that notes the positional arguments it is called with
    and then deadlocks. *)
Definition recording : pyfun (list (list pyval)) :=
  fun args _ w =>
    (Raise (Exn [db_exc.DBDeadlock; db_exc.DBError] "deadlock" None [] None None),
     set_user w (user w ++ [args])).

(* ===================================================================== *)
(** ** The context argument of a gated call *)
(* ===================================================================== *)

(** The argument the gate reads the session from: the one named
    [context_var_name], whether the caller passed it by keyword or by
    position. *)
Definition context_argument {U} (context_var_name : string) (f : pyfunction U)
  (args : list pyval) (kwargs : list (string * pyval)) : option pyval :=
  match list_index context_var_name (argnames f) with
  | Some ctx_arg_index =>
      locate_context context_var_name ctx_arg_index args kwargs
  | None => None
  end.

(** A method [update_port(self, context, port)] that always deadlocks. *)
Definition update_port : pyfunction (unit * nat) :=
  PyFunction ["self"; "context"; "port"] (counting deadlocked).

(** A block that fails with an aggregate holding an address conflict. *)
Definition conflicting_block : call unit pyval :=
  fun w => (Raise (Exn [exceptions.MultipleExceptions] "" None
                     [new_exn "IpAddressAlreadyAllocated" "10.0.0.2"]
                     None None), w).

(* ===================================================================== *)
(** ** Subscriptions held and counted *)
(* ===================================================================== *)

(** [args in l]. *)
Definition holds (l : list (list listen_arg)) (args : list listen_arg) : bool :=
  existsb (fun y => args_eqb y args) l.

(** [l.count(args)]. *)
Definition occurrences (args : list listen_arg) (l : list (list listen_arg))
  : nat :=
  List.length (filter (fun y => args_eqb y args) l).

(** A handler subscribed to the after_flush event of the session class. *)
Definition after_flush_subscription : list listen_arg :=
  [ARef 1; AName "after_flush"; ARef 2].

(** The keyword arguments [_create_context_manager] configures with. *)
Definition context_manager_config : list (string * bool) :=
  [("sqlite_fk", true); ("flush_on_subtransaction", true)].

(* ===================================================================== *)
(** ** Sessions before and after the commit hook *)
(* ===================================================================== *)

(** The session once the hook has flushed what was pending. *)
Definition before_commit_flush (s : session) : session :=
  match new s with [] => s | _ => flush s end.

(** The objects captured for relationship loading. *)
Definition captured (s : session) : list nat :=
  match _load_rels s with Some l => l | None => [] end.

(** [s1] is [s] after some forced loads, each of them satisfying [Q] and
    made on an object of the session for an attribute it had not loaded:
    the session holds the same objects, loaded attributes stay loaded, and
    objects outside the session are as they were. *)
Record grows (Q : nat * string -> Prop) (s s1 : session) : Prop := Grows {
  grows_contents : contents s1 = contents s;
  grows_nested : nested s1 = nested s;
  grows_relationships : relationships s1 = relationships s;
  grows_dict :
    forall o k, mem_str k (state_dict s o) = true ->
                mem_str k (state_dict s1 o) = true;
  grows_detached :
    forall o, mem_nat o (contents s) = false -> state_dict s1 o = state_dict s o;
  grows_loads :
    exists ls,
      loads s1 = loads s ++ ls /\
      Forall (fun p : nat * string =>
                Q p /\ mem_nat (fst p) (contents s) = true /\
                mem_str (snd p) (state_dict s (fst p)) = false) ls
}.

(** A forced load of an eager relationship of [o], one of [rels]. *)
Definition loads_eager_of (o : nat) (rels : list relationship)
  (p : nat * string) : Prop :=
  fst p = o /\ exists rel, In rel rels /\ eager rel = true /\ key rel = snd p.

(** A forced load of an eager relationship of one of the objects [objs],
    whose relationships [R] gives. *)
Definition loads_eager_among (objs : list nat) (R : nat -> list relationship)
  (p : nat * string) : Prop :=
  In (fst p) objs /\
  exists rel, In rel (R (fst p)) /\ eager rel = true /\ key rel = snd p.

(** How a run of the loader ends when it does not return: with an
    [AssertionError], after a load forced on an object of [objs] for an
    eager relationship that the load left unpopulated. *)
Definition aborted_on (objs : list nat) (R : nat -> list relationship)
  (r : outcome unit * session) : Prop :=
  exists e o rel,
    fst r = Raise e /\ isinstance e ["AssertionError"] = true /\
    In o objs /\ mem_nat o (contents (snd r)) = true /\
    In rel (R o) /\ eager rel = true /\
    In (o, key rel) (loads (snd r)) /\
    mem_str (key rel) (state_dict (snd r) o) = false.

(** A port with two eagerly loaded and a lazily loaded relationship, one
    pending object, one captured at an earlier flush and detached since,
    and loaders that always, or never, populate what they load. *)
Definition port_relationships : list relationship :=
  [Relationship "fixed_ips" "joined"; Relationship "bindings" "select";
   Relationship "dns" "subquery"].

Definition committing_session : session :=
  Session [1] [1] false (Some [2]) (fun _ => port_relationships)
    (fun o => if Nat.eqb o 1 then ["dns"] else []) [] [].

Definition loads_all : nat -> string -> session -> bool := fun _ _ _ => true.
Definition loads_none : nat -> string -> session -> bool := fun _ _ _ => false.


(* ===================================================================== *)
(** ** Notions for the further properties *)
(* ===================================================================== *)

(** The same attributes but for the retry-exhaustion flag. *)
Definition same_but_flag (e e0 : exn) : Prop :=
  e_mro e = e_mro e0 /\ str e = str e0 /\
  inner_exceptions e = inner_exceptions e0 /\
  inner_exception e = inner_exception e0 /\
  inner_exc e = inner_exc e0.

(** A block that fails with a deadlock already flagged as exhausted. *)
Definition exhausted_block : call unit pyval :=
  fun w => (Raise (Exn [db_exc.DBDeadlock; db_exc.DBError] "deadlock"
                     (Some (VBool true)) [] None None), w).

(** A unit of work that fails with an error no retry can help. *)
Definition invalid_input : pyfun unit :=
  fun _ _ w => (Raise (new_exn "ValueError" "bad value with 1305 in it"), w).

(** A method [create_port(self, context)] that rejects its input. *)
Definition reject_port : pyfunction unit :=
  PyFunction ["self"; "context"] invalid_input.

(** The session when the savepoint it was in is released and the
    transaction around it comes to commit. *)
Definition outer_commit (s : session) : session :=
  Session (new s) (contents s) false (_load_rels s)
    (relationships s) (state_dict s) (loading_enabled s) (loads s).

(** A session inside a savepoint, with one pending port. *)
Definition savepoint_session : session :=
  Session [1] [1] true None (fun _ => port_relationships) (fun _ => []) [] [].

(** One call of the module's accessors. *)
Inductive accessor_call : Type :=
| call_get_context_manager
| call_create_context_manager
| call_get_reader_session
| call_get_writer_session.

Definition run_accessor (c : accessor_call) (s : db_api) : db_api :=
  match c with
  | call_get_context_manager =>
      DbApi (snd (get_context_manager (facade_state s))) (sessions s)
  | call_create_context_manager =>
      DbApi (snd (_create_context_manager (facade_state s))) (sessions s)
  | call_get_reader_session => snd (get_reader_session s)
  | call_get_writer_session => snd (get_writer_session s)
  end.

(** Calls made one after the other. *)
Definition run_accessors (calls : list accessor_call) (s : db_api) : db_api :=
  fold_left (fun s c => run_accessor c s) calls s.

(** The module as it is when its first statement runs, no session made. *)
Definition db_api_at_import : db_api := DbApi facade_at_import [].

(** The calls among [calls] that make a session. *)
Definition session_calls (calls : list accessor_call) : list facade_side :=
  flat_map (fun c => match c with
                     | call_get_reader_session => [reader]
                     | call_get_writer_session => [writer]
                     | _ => []
                     end) calls.

(* ===================================================================== *)
(** * Properties of the error classifier *)
(* ===================================================================== *)

Lemma _is_nested_instance_eq e etypes :
  _is_nested_instance e etypes =
  if isinstance e etypes then true
  else if isinstance e [exceptions.MultipleExceptions] then
    existsb (fun i => _is_nested_instance i etypes) (inner_exceptions e)
  else if isinstance e [db_exc.DBError] then
    match inner_exception e with
    | Some i => _is_nested_instance i etypes
    | None => false
    end
  else false.
Proof. destruct e; reflexivity. Qed.

(** What the classifier finds, it finds along the two container shapes. *)
Lemma nested_instance_wraps etypes e :
  _is_nested_instance e etypes = true -> wraps etypes e.
Proof.
  induction e as [m s f l i x IHl IHi _] using exn_nested_ind.
  rewrite _is_nested_instance_eq; cbn [inner_exceptions inner_exception].
  destruct (isinstance _ etypes) eqn:Hk.
  - intros _. now apply wraps_itself.
  - destruct (isinstance _ [exceptions.MultipleExceptions]) eqn:Hm.
    + intros H. apply existsb_exists in H as (c & Hin & Hc).
      apply wraps_in_aggregate with (i := c); auto.
      rewrite Forall_forall in IHl. auto.
    + destruct (isinstance _ [db_exc.DBError]) eqn:Hd; [|discriminate].
      destruct i as [c|]; [|discriminate].
      intros H. apply wraps_in_dberror with (i := c); auto.
Qed.

Lemma distinct_containers_eq e :
  distinct_containers e =
  negb (isinstance e [exceptions.MultipleExceptions] &&
        isinstance e [db_exc.DBError])
  && forallb distinct_containers (inner_exceptions e)
  && match inner_exception e with
     | Some c => distinct_containers c
     | None => true
     end.
Proof. destruct e; reflexivity. Qed.

(** What an exception wraps, the classifier finds, when no object is both
    kinds of container. *)
Lemma wraps_nested_instance etypes e :
  distinct_containers e = true ->
  wraps etypes e -> _is_nested_instance e etypes = true.
Proof.
  intros Hd Hw. induction Hw as [e Hk | e i Hm Hin Hw IH | e i Hdb Hi Hw IH];
    rewrite _is_nested_instance_eq;
    rewrite distinct_containers_eq in Hd;
    apply andb_true_iff in Hd as [Hd Hcause];
    apply andb_true_iff in Hd as [Hone Hall].
  - now rewrite Hk.
  - destruct (isinstance e etypes); [reflexivity|].
    rewrite Hm. apply existsb_exists. exists i. split; [assumption|].
    apply IH. rewrite forallb_forall in Hall. auto.
  - destruct (isinstance e etypes); [reflexivity|].
    rewrite Hdb in *. rewrite andb_true_r in Hone.
    apply negb_true_iff in Hone. rewrite Hone.
    rewrite Hi in *. auto.
Qed.

(** A database error is found wherever it is wrapped: the wrapper of a
    database error is a database error itself. *)
Lemma wraps_dberror_nested e :
  wraps [db_exc.DBError] e -> _is_nested_instance e [db_exc.DBError] = true.
Proof.
  intros Hw. induction Hw as [e Hk | e i Hm Hin Hw IH | e i Hdb Hi Hw IH];
    rewrite _is_nested_instance_eq.
  - now rewrite Hk.
  - destruct (isinstance e [db_exc.DBError]); [reflexivity|].
    rewrite Hm. apply existsb_exists. eauto.
  - now rewrite Hdb.
Qed.

(** [str_contains] decides whether the needle is a substring. *)
Lemma prefix_append needle : forall hay,
  String.prefix needle hay = true <-> exists rest, hay = (needle ++ rest)%string.
Proof.
  induction needle as [|c needle IH]; intros hay; cbn.
  - split; [intros _; now exists hay | intros _; now destruct hay].
  - destruct hay as [|d hay]; cbn.
    + split; [discriminate | intros [rest H]; discriminate H].
    + destruct (Ascii.ascii_dec c d) as [->|Hne].
      * rewrite IH. split; intros [rest H]; exists rest; congruence.
      * split; [discriminate | intros [rest H]; congruence].
Qed.

Lemma str_contains_substring needle : forall hay,
  str_contains needle hay = true <->
  exists before rest, hay = (before ++ needle ++ rest)%string.
Proof.
  induction hay as [|d hay IH]; cbn [str_contains].
  - destruct (String.prefix needle "") eqn:Hp.
    + split; [intros _|reflexivity].
      apply prefix_append in Hp as [rest H]. now exists "", rest.
    + split; [discriminate|]. intros (before & rest & H).
      destruct before; [|discriminate H]. cbn in H.
      assert (String.prefix needle "" = true)
        by (apply prefix_append; eauto).
      congruence.
  - destruct (String.prefix needle (String d hay)) eqn:Hp.
    + split; [intros _|reflexivity].
      apply prefix_append in Hp as [rest H]. now exists "", rest.
    + rewrite IH. split.
      * intros (before & rest & ->). now exists (String d before), rest.
      * intros (before & rest & H). destruct before as [|c before].
        -- cbn in H.
           assert (String.prefix needle (String d hay) = true)
             by (apply prefix_append; eauto).
           congruence.
        -- cbn in H. injection H as _ ->. eauto.
Qed.

Lemma is_retriable_flagged e :
  truthy (getattr_RETRY_EXCEEDED e (VBool false)) = true ->
  is_retriable e = false.
Proof. unfold is_retriable. now intros ->. Qed.

Lemma flagged_truthy e :
  flagged e -> truthy (getattr_RETRY_EXCEEDED e (VBool false)) = true.
Proof.
  intros (v & Hv & Ht). unfold getattr_RETRY_EXCEEDED. now rewrite Hv.
Qed.

(** C1: an exception that carries the retry-exhaustion flag is never
    retriable, whatever it is or wraps. *)
Theorem is_retriable_exhausted (e : exn) :
  flagged e -> is_retriable e = false.
Proof.
  intros H. apply is_retriable_flagged. now apply flagged_truthy.
Qed.

Lemma is_retriable_exhausted_witness :
  _is_nested_instance flagged_deadlock RETRIABLE_KINDS = true /\
  is_retriable flagged_deadlock = false.
Proof.
  split; [reflexivity|].
  apply (@is_retriable_exhausted flagged_deadlock).
  exists (VBool true). split; reflexivity.
Defined.

Lemma is_retriable_unflagged e :
  unflagged e ->
  is_retriable e =
  (_is_nested_instance e RETRIABLE_KINDS
   || _is_nested_instance e [db_exc.DBError] && str_contains "1305" (str e)).
Proof.
  unfold unflagged, is_retriable. intros ->.
  now destruct (_is_nested_instance e RETRIABLE_KINDS).
Qed.

(** C2: an unflagged exception that is one of the transient kinds, or wraps
    one at any depth through aggregates and database-error wrappers, is
    retriable. *)
Theorem is_retriable_wrapped_transient (e : exn) :
  unflagged e ->
  distinct_containers e = true ->
  wraps RETRIABLE_KINDS e ->
  is_retriable e = true.
Proof.
  intros Hf Hd Hw. rewrite (is_retriable_unflagged Hf).
  now rewrite (wraps_nested_instance Hd Hw).
Qed.

Lemma is_retriable_wrapped_transient_witness :
  is_retriable nested_stale_data = true.
Proof.
  apply (@is_retriable_wrapped_transient nested_stale_data).
  - reflexivity.
  - reflexivity.
  - apply wraps_in_aggregate
      with (i := Exn [db_exc.DBError] "DBError" None []
                   (Some (Exn [exceptions.MultipleExceptions] "" None
                            [Exn [exc.StaleDataError] "stale" None [] None None]
                            None None))
                   None).
    + reflexivity.
    + simpl. right. left. reflexivity.
    + eapply wraps_in_dberror; [reflexivity | reflexivity |].
      eapply wraps_in_aggregate; [reflexivity | left; reflexivity |].
      apply wraps_itself. reflexivity.
Defined.

(** C3: for an unflagged exception that neither is nor wraps a structured
    transient kind, the classifier answers true when the exception is or
    wraps a database error and prints with "1305" in it, and false when it
    does not. *)
Theorem is_retriable_savepoint_fallback (e : exn) :
  unflagged e ->
  ~ wraps RETRIABLE_KINDS e ->
  (wraps [db_exc.DBError] e /\ str_contains "1305" (str e) = true ->
   is_retriable e = true) /\
  (~ (wraps [db_exc.DBError] e /\ str_contains "1305" (str e) = true) ->
   is_retriable e = false).
Proof.
  intros Hf Hk. rewrite (is_retriable_unflagged Hf).
  assert (Hn : _is_nested_instance e RETRIABLE_KINDS = false).
  { destruct (_is_nested_instance e RETRIABLE_KINDS) eqn:E; [|reflexivity].
    exfalso. apply Hk. now apply nested_instance_wraps. }
  rewrite Hn. cbn [orb]. split.
  - intros [Hw Hs]. now rewrite (wraps_dberror_nested Hw), Hs.
  - intros Hno.
    destruct (_is_nested_instance e [db_exc.DBError]) eqn:Hdb; [|reflexivity].
    destruct (str_contains "1305" (str e)) eqn:Hs; [|reflexivity].
    exfalso. apply Hno. split; [|reflexivity]. now apply nested_instance_wraps.
Qed.

Lemma is_retriable_savepoint_fallback_witness :
  is_retriable savepoint_error = true /\
  is_retriable (new_exn "ValueError" "1305") = false.
Proof.
  split.
  - apply (@is_retriable_savepoint_fallback savepoint_error).
    + reflexivity.
    + intros Hw.
      apply (wraps_nested_instance (etypes := RETRIABLE_KINDS)) in Hw;
        [discriminate | reflexivity].
    + split; [apply wraps_itself|]; reflexivity.
  - apply (@is_retriable_savepoint_fallback (new_exn "ValueError" "1305")).
    + reflexivity.
    + intros Hw.
      apply (wraps_nested_instance (etypes := RETRIABLE_KINDS)) in Hw;
        [discriminate | reflexivity].
    + intros [Hw _].
      apply wraps_dberror_nested in Hw. discriminate.
Defined.

(* ===================================================================== *)
(** * Properties of the argument copies *)
(* ===================================================================== *)














(** The call one invocation of the innermost function makes. *)
Lemma wrapped_with_copies_call U (f : pyfun U) args kwargs w :
  wrapped_with_copies f args kwargs w =
  log_retriable
    (f (fst (dup_args args (next_id w)))
       (fst (dup_kwargs kwargs (snd (dup_args args (next_id w)))))
       (set_next_id w (allocator_after_copies args kwargs (next_id w)))).
Proof.
  unfold wrapped_with_copies, allocator_after_copies.
  destruct (dup_args args (next_id w)) as [args' n1]; cbn [fst snd].
  now destruct (dup_kwargs kwargs n1) as [kwargs' n2].
Qed.


Lemma Forall2_nth_error_left A B (R : A -> B -> Prop) l l' :
  Forall2 R l l' ->
  forall i a, nth_error l i = Some a ->
              exists c, nth_error l' i = Some c /\ R a c.
Proof.
  induction 1 as [|x y l l' Hxy _ IH]; intros [|i] a; cbn; try discriminate.
  - intros [= ->]. eauto.
  - apply IH.
Qed.


















(** The twenty attempts at [sample_args]: the first two calls noted. *)
Example attempts_noted :
  let log :=
    calls_seen
      (snd (retry_db_errors (recording_calls deadlocked) sample_args
              sample_kwargs (World 5 [] [] (tt, [])))) in
  List.length log = 20 /\
  nth_error log 0
  = Some ([VObj 0; VList 5 [VInt 1; VList 6 []]; VStr "port"],
          [("filters", VDict 7 [(VStr "id", VSet 8 [VInt 7])]);
           ("limit", VInt 10)]) /\
  nth_error log 1
  = Some ([VObj 0; VList 9 [VInt 1; VList 10 []]; VStr "port"],
          [("filters", VDict 11 [(VStr "id", VSet 12 [VInt 7])]);
           ("limit", VInt 10)]).
Proof. vm_compute. auto. Qed.

(* ===================================================================== *)
(** * Properties of the retry decorators *)
(* ===================================================================== *)


Lemma flagged_setattr e : flagged (setattr_RETRY_EXCEEDED e (VBool true)).
Proof. destruct e. exists (VBool true). split; reflexivity. Qed.

Lemma is_retriable_setattr e :
  is_retriable (setattr_RETRY_EXCEEDED e (VBool true)) = false.
Proof. apply is_retriable_flagged. now destruct e. Qed.

(** One call of a counted function is one more on the counter, however the
    call ends. *)
Lemma counting_counts U (f : pyfun U) args kwargs w :
  call_count (snd (counting f args kwargs w)) = S (call_count w).
Proof.
  unfold counting, call_count.
  now destruct (f args kwargs (set_user w (fst (user w)))).
Qed.

Lemma call_count_log_retriable U (r : outcome pyval * world (U * nat)) :
  call_count (snd (log_retriable r)) = call_count (snd r) /\
  fst (log_retriable r) = fst r.
Proof.
  destruct r as [[v|e|b] w]; cbn; auto.
  destruct (is_retriable e); cbn; auto.
Qed.

Lemma wrapped_with_copies_counts U (f : pyfun U) args kwargs w :
  call_count (snd (wrapped_with_copies (counting f) args kwargs w))
  = S (call_count w).
Proof.
  rewrite wrapped_with_copies_call.
  destruct (call_count_log_retriable
              (counting f (fst (dup_args args (next_id w)))
                 (fst (dup_kwargs kwargs (snd (dup_args args (next_id w)))))
                 (set_next_id w (allocator_after_copies args kwargs (next_id w)))))
    as [-> _].
  now rewrite counting_counts.
Qed.

(** The retry loop makes at most [more + 1] attempts, whatever they do. *)
Lemma retry_attempts_bounded U (g : pyfun (U * nat)) checker args kwargs :
  (forall w, call_count (snd (g args kwargs w)) = S (call_count w)) ->
  forall more w,
    call_count w < call_count (snd (retry_attempts more checker g args kwargs w))
    <= call_count w + S more.
Proof.
  intros Hg. induction more as [|more IH]; intros w; cbn [retry_attempts];
    specialize (Hg w); destruct (g args kwargs w) as [[v|e|b] w1];
    cbn [snd] in *; try lia.
  destruct (checker e); cbn [snd]; [|lia].
  specialize (IH w1). lia.
Qed.

(** Against a function that fails retriably at every call, the loop uses
    every attempt it has and ends with the exception of the last one. *)
Lemma retry_attempts_exhausted U (g : pyfun (U * nat)) args kwargs :
  (forall w, exists e w',
      g args kwargs w = (Raise e, w') /\ is_retriable e = true /\
      call_count w' = S (call_count w)) ->
  forall more w,
  exists e w',
    retry_attempts more is_retriable g args kwargs w = (Raise e, w') /\
    is_retriable e = true /\
    call_count w' = call_count w + S more /\
    exists w0, g args kwargs w0 = (Raise e, w').
Proof.
  intros Hg. induction more as [|more IH]; intros w; cbn [retry_attempts];
    destruct (Hg w) as (e & w1 & Hcall & He & Hn); rewrite Hcall.
  - exists e, w1. repeat split; auto; [lia | eauto].
  - rewrite He. destruct (IH w1) as (e' & w2 & Hrun & He' & Hn' & Hlast).
    exists e', w2. repeat split; auto. lia.
Qed.


Lemma wrapped_counting_raises U (f : pyfun U) args kwargs :
  always_raises_retriable f ->
  forall w, exists e w',
    wrapped_with_copies (counting f) args kwargs w = (Raise e, w') /\
    is_retriable e = true /\ call_count w' = S (call_count w).
Proof.
  intros Hf w.
  pose proof (wrapped_with_copies_counts f args kwargs w) as Hn.
  rewrite wrapped_with_copies_call in *.
  set (a := fst (dup_args args (next_id w))) in *.
  set (k := fst (dup_kwargs kwargs (snd (dup_args args (next_id w))))) in *.
  set (v := set_next_id w (allocator_after_copies args kwargs (next_id w))) in *.
  unfold counting in *.
  destruct (Hf a k (set_user v (fst (user v)))) as (e & v' & Hcall & He).
  rewrite Hcall in *. cbn [log_retriable] in *. rewrite He in *.
  eexists _, _. split; [reflexivity|]. split; assumption.
Qed.

Lemma retry_db_errors_eq U (f : pyfun U) args kwargs w :
  retry_db_errors f args kwargs w =
  match retry_attempts (MAX_RETRIES - 1) is_retriable (wrapped_with_copies f)
          args kwargs w with
  | (Raise e, w') =>
      if is_retriable e
      then (Raise (setattr_RETRY_EXCEEDED e (VBool true)), w')
      else (Raise e, w')
  | r => r
  end.
Proof. reflexivity. Qed.

(** Whatever the unit of work does, one call through [retry_db_errors]
    attempts it at least once and at most [MAX_RETRIES] times. *)
Lemma retry_db_errors_bounded U (f : pyfun U) args kwargs w :
  call_count w
  < call_count (snd (retry_db_errors (counting f) args kwargs w))
  <= call_count w + MAX_RETRIES.
Proof.
  rewrite retry_db_errors_eq.
  pose proof (retry_attempts_bounded (wrapped_with_copies (counting f))
                is_retriable args kwargs
                (fun w => wrapped_with_copies_counts f args kwargs w)
                (MAX_RETRIES - 1) w) as H.
  unfold MAX_RETRIES in *. change (20 - 1) with 19 in *.
  destruct (retry_attempts _ _ _ _ _ _) as [[v|e|b] w']; cbn [snd] in *;
    try (destruct (is_retriable e)); cbn [snd]; lia.
Qed.

Lemma retry_db_errors_exhausted U (f : pyfun U) args kwargs :
  always_raises_retriable f ->
  forall w, exists e w',
    retry_db_errors (counting f) args kwargs w
    = (Raise (setattr_RETRY_EXCEEDED e (VBool true)), w') /\
    is_retriable e = true /\
    call_count w' = call_count w + MAX_RETRIES /\
    exists a k v v', counting f a k v = (Raise e, v') /\
                     call_count v' = call_count w + MAX_RETRIES.
Proof.
  intros Hf w. rewrite retry_db_errors_eq.
  destruct (retry_attempts_exhausted (wrapped_with_copies (counting f))
              args kwargs (wrapped_counting_raises args kwargs Hf)
              (MAX_RETRIES - 1) w)
    as (e & w' & Hrun & He & Hn & w0 & Hlast).
  rewrite Hrun, He. unfold MAX_RETRIES in *.
  exists e, w'. split; [reflexivity|]. split; [assumption|]. split; [lia|].
  rewrite wrapped_with_copies_call in Hlast.
  set (a := fst (dup_args args (next_id w0))) in *.
  set (k := fst (dup_kwargs kwargs (snd (dup_args args (next_id w0))))) in *.
  set (v := set_next_id w0 (allocator_after_copies args kwargs (next_id w0))) in *.
  destruct (call_count_log_retriable (counting f a k v)) as [Hc Ho].
  rewrite Hlast in Hc, Ho. cbn [fst snd] in Hc, Ho.
  destruct (counting f a k v) as [r v'] eqn:Hcall. cbn [fst snd] in *. subst r.
  exists a, k, v, v'. split; [exact Hcall|]. lia.
Qed.


Lemma deadlocked_always_raises : always_raises_retriable deadlocked.
Proof. intros args kwargs w. eexists _, _. split; reflexivity. Qed.

Example deadlocked_run :
  let r := retry_db_errors (counting deadlocked) sample_args sample_kwargs
             (World 5 [] [] (tt, 0)) in
  fst r = Raise (Exn [db_exc.DBDeadlock; db_exc.DBError] "deadlock"
                   (Some (VBool true)) [] None None) /\
  call_count (snd r) = 20 /\
  List.length (debug_log (snd r)) = 20.
Proof. vm_compute. auto. Qed.


(** Three attempts at a call with a context, a list and a string: the
    context and the string arrive as they are, the list as a new list each
    time. *)
Example recording_run :
  user (snd (_tag_retriables_as_unretriable
               (wrap_db_retry 3 is_retriable (wrapped_with_copies recording))
               [VObj 0; VList 1 [VInt 1; VList 2 []]; VStr "port"] []
               (World 3 [] [] [])))
  = [[VObj 0; VList 3 [VInt 1; VList 4 []]; VStr "port"];
     [VObj 0; VList 5 [VInt 1; VList 6 []]; VStr "port"];
     [VObj 0; VList 7 [VInt 1; VList 8 []]; VStr "port"]].
Proof. reflexivity. Qed.

(* ===================================================================== *)
(** * Properties of the context-sensitive gate *)
(* ===================================================================== *)

(** C6: a function decorated by [retry_if_session_inactive], called with a
    context whose session is active, is the undecorated function, called
    once whatever it raises; called with a context whose session is not
    active, it is the [retry_db_errors] version of the function, which
    attempts the function at least once and at most [MAX_RETRIES] times,
    and exactly [MAX_RETRIES] times when every attempt raises a retriable
    error. *)
Theorem retry_if_session_inactive_gates (U : Type) (context_var_name : string)
  (names : list string) (g : pyfun U) (wrapped : pyfun (U * nat))
  (args : list pyval) (kwargs : list (string * pyval))
  (w : world (U * nat)) (context : pyval) :
  retry_if_session_inactive context_var_name (PyFunction names (counting g))
  = inr wrapped ->
  context_argument context_var_name (PyFunction names (counting g)) args kwargs
  = Some context ->
  (session_is_active w context = Some true ->
   wrapped args kwargs w = counting g args kwargs w /\
   call_count (snd (wrapped args kwargs w)) = S (call_count w)) /\
  (session_is_active w context = Some false ->
   wrapped args kwargs w = retry_db_errors (counting g) args kwargs w /\
   call_count w < call_count (snd (wrapped args kwargs w))
   <= call_count w + MAX_RETRIES /\
   (always_raises_retriable g ->
    call_count (snd (wrapped args kwargs w)) = call_count w + MAX_RETRIES)).
Proof.
  unfold retry_if_session_inactive, context_argument. cbn [argnames body].
  destruct (list_index context_var_name names) as [i|]; [|discriminate].
  intros [= <-] Hctx. rewrite Hctx. split; intros Hactive; rewrite Hactive.
  - split; [reflexivity|]. apply counting_counts.
  - split; [reflexivity|]. split; [apply retry_db_errors_bounded|].
    intros Hg.
    destruct (retry_db_errors_exhausted args kwargs Hg w)
      as (e & w' & -> & _ & Hn & _).
    exact Hn.
Qed.

Lemma retry_if_session_inactive_gates_witness :
  match retry_if_session_inactive "context" update_port with
  | inr wrapped =>
      call_count (snd (wrapped [VObj 9; VObj 0; VDict 1 []] []
                         (World 5 [] [0] (tt, 0)))) = 1 /\
      call_count (snd (wrapped [VObj 9]
                         [("context", VObj 0); ("port", VDict 1 [])]
                         (World 5 [] [] (tt, 0)))) = 0 + MAX_RETRIES
  | inl _ => False
  end.
Proof.
  destruct (retry_if_session_inactive "context" update_port)
    as [e|wrapped] eqn:Hdec; [discriminate Hdec|].
  split.
  - apply (@retry_if_session_inactive_gates unit "context"
             ["self"; "context"; "port"] deadlocked wrapped
             [VObj 9; VObj 0; VDict 1 []] [] (World 5 [] [0] (tt, 0)) (VObj 0)
             Hdec eq_refl).
    reflexivity.
  - apply (@retry_if_session_inactive_gates unit "context"
             ["self"; "context"; "port"] deadlocked wrapped
             [VObj 9] [("context", VObj 0); ("port", VDict 1 [])]
             (World 5 [] [] (tt, 0)) (VObj 0) Hdec eq_refl).
    + reflexivity.
    + exact deadlocked_always_raises.
Defined.

(** Decorating a function that has no parameter of the given name fails at
    decoration time. *)
Lemma retry_if_session_inactive_no_parameter U name (f : pyfunction U) :
  list_index name (argnames f) = None ->
  exists e, retry_if_session_inactive name f = inl e /\
            isinstance e ["RuntimeError"] = true.
Proof.
  intros H. unfold retry_if_session_inactive. rewrite H.
  eexists. split; reflexivity.
Qed.

(* ===================================================================== *)
(** * Properties of the exception-to-retry converter *)
(* ===================================================================== *)

Lemma exc_to_retry_eq U A etypes (block : call U A) w :
  exc_to_retry etypes block w =
  match block w with
  | (Raise e, w') =>
      if _is_nested_instance e etypes
      then (Raise (RetryRequest_of e), w')
      else (Raise e, w')
  | r => r
  end.
Proof. reflexivity. Qed.

(** A block that returns, or is interrupted, leaves as it would alone. *)
Lemma exc_to_retry_passes U A etypes (block : call U A) w :
  (forall e, fst (block w) <> Raise e) ->
  exc_to_retry etypes block w = block w.
Proof.
  rewrite exc_to_retry_eq. destruct (block w) as [[v|e|b] w']; auto.
  intros H. now destruct (H e).
Qed.

(** C8: when the block raises an exception that is, or transitively wraps,
    an instance of the given kinds, [exc_to_retry] raises in its place a
    [RetryRequest] that carries it; an exception that does not match leaves
    the block as it was raised. *)
Theorem exc_to_retry_converts (U A : Type) (etypes : list pyclass)
  (block : call U A) (w w' : world U) (e : exn) :
  block w = (Raise e, w') ->
  distinct_containers e = true ->
  (wraps etypes e ->
   exc_to_retry etypes block w = (Raise (RetryRequest_of e), w') /\
   isinstance (RetryRequest_of e) [db_exc.RetryRequest] = true /\
   inner_exc (RetryRequest_of e) = Some e) /\
  (~ wraps etypes e ->
   exc_to_retry etypes block w = (Raise e, w')).
Proof.
  intros Hblock Hd. rewrite exc_to_retry_eq, Hblock. split.
  - intros Hw. rewrite (wraps_nested_instance Hd Hw).
    split; [reflexivity|]. split; reflexivity.
  - intros Hno.
    destruct (_is_nested_instance e etypes) eqn:Hn; [|reflexivity].
    exfalso. apply Hno. now apply nested_instance_wraps.
Qed.

Lemma exc_to_retry_converts_witness :
  (exists r w',
      exc_to_retry ["IpAddressAlreadyAllocated"] conflicting_block
        (World 0 [] [] tt) = (Raise r, w') /\
      is_retriable r = true) /\
  exc_to_retry ["PortNotFound"] conflicting_block (World 0 [] [] tt)
  = conflicting_block (World 0 [] [] tt).
Proof.
  split.
  - destruct (@exc_to_retry_converts unit pyval ["IpAddressAlreadyAllocated"]
                conflicting_block (World 0 [] [] tt) _ _ eq_refl eq_refl)
      as [Hyes _].
    destruct Hyes as (Hrun & _).
    + eapply wraps_in_aggregate; [reflexivity | left; reflexivity |].
      apply wraps_itself. reflexivity.
    + eexists _, _. split; [exact Hrun | reflexivity].
  - destruct (@exc_to_retry_converts unit pyval ["PortNotFound"]
                conflicting_block (World 0 [] [] tt) _ _ eq_refl eq_refl)
      as [_ Hno].
    apply Hno. intros Hw.
    apply (wraps_nested_instance (etypes := ["PortNotFound"])) in Hw;
      [discriminate | reflexivity].
Defined.

(* ===================================================================== *)
(** * Properties of the event registry *)
(* ===================================================================== *)

Lemma listen_arg_eqb_eq a b : listen_arg_eqb a b = true <-> a = b.
Proof.
  destruct a, b; cbn; split; try discriminate; intros H.
  - apply Nat.eqb_eq in H. now subst.
  - injection H as ->. apply Nat.eqb_refl.
  - apply String.eqb_eq in H. now subst.
  - injection H as ->. apply String.eqb_refl.
Qed.

Lemma args_eqb_eq a : forall b, args_eqb a b = true <-> a = b.
Proof.
  induction a as [|x a IH]; intros [|y b]; cbn; split;
    try discriminate; try reflexivity.
  - intros H. apply andb_true_iff in H as [Hx Ha].
    apply listen_arg_eqb_eq in Hx. apply IH in Ha. now subst.
  - intros [= -> ->]. apply andb_true_iff. split.
    + now apply listen_arg_eqb_eq.
    + now apply IH.
Qed.

(** [l.remove(x)] fails exactly when [x] is not in [l]. *)
Lemma list_remove_none x l : list_remove x l = None <-> holds l x = false.
Proof.
  induction l as [|y rest IH]; cbn; [tauto|].
  destruct (args_eqb y x); cbn; [split; discriminate|].
  destruct (list_remove x rest); cbn; rewrite <- IH; split;
    auto; discriminate.
Qed.

(** [l.remove(x)] takes one occurrence of [x] away and leaves the
    occurrences of everything else. *)
Lemma list_remove_some x l l' :
  list_remove x l = Some l' ->
  forall y, occurrences y l = occurrences y l' + (if args_eqb x y then 1 else 0).
Proof.
  revert l'. induction l as [|z rest IH]; cbn; [discriminate|].
  intros l'. destruct (args_eqb z x) eqn:Hz.
  - intros [= <-] y. apply args_eqb_eq in Hz. subst z.
    unfold occurrences. cbn. destruct (args_eqb x y); cbn; lia.
  - destruct (list_remove x rest) as [rest'|]; [|discriminate].
    intros [= <-] y. specialize (IH _ eq_refl y).
    unfold occurrences in *. cbn. destruct (args_eqb z y); cbn; lia.
Qed.

Lemma args_eqb_neq a b : a <> b -> args_eqb a b = false.
Proof.
  intros H. destruct (args_eqb a b) eqn:E; [|reflexivity].
  apply args_eqb_eq in E. contradiction.
Qed.

Lemma holds_In l x : holds l x = true <-> In x l.
Proof.
  unfold holds. rewrite existsb_exists. split.
  - intros (y & Hy & E). apply args_eqb_eq in E. now subst.
  - intros H. exists x. split; [assumption|]. now apply args_eqb_eq.
Qed.

Lemma holds_not_In l x : ~ In x l -> holds l x = false.
Proof.
  intros H. destruct (holds l x) eqn:E; [|reflexivity].
  apply holds_In in E. contradiction.
Qed.

(** Where every key is held once, [l.remove(x)] leaves no [x] and keeps
    every other key. *)
Lemma list_remove_NoDup x l :
  NoDup l ->
  forall l', list_remove x l = Some l' ->
    NoDup l' /\ holds l' x = false /\
    forall y, y <> x -> holds l' y = holds l y.
Proof.
  induction 1 as [|z rest Hz Hrest IH]; cbn [list_remove]; [discriminate|].
  intros l'. destruct (args_eqb z x) eqn:E.
  - intros [= <-]. apply args_eqb_eq in E. subst z.
    split; [assumption|]. split; [now apply holds_not_In|].
    intros y Hy. unfold holds. cbn [existsb].
    rewrite args_eqb_neq by congruence. reflexivity.
  - destruct (list_remove x rest) as [rest'|] eqn:R; [|discriminate].
    intros [= <-]. destruct (IH _ eq_refl) as (Hnd & Hx & Hother).
    split; [|split].
    + constructor; [|assumption]. intros Hin. apply Hz.
      apply holds_In. rewrite <- Hother.
      * now apply holds_In.
      * intros ->. apply holds_In in Hin. congruence.
    + unfold holds in *. cbn [existsb]. now rewrite E, Hx.
    + intros y Hy. unfold holds in *. cbn [existsb]. now rewrite Hother.
Qed.

(** C9, as the code has it, for a registry that holds each key once.  When
    the registry holds the key and the record the subscription,
    [sqla_remove] returns: the registry has given the key up and keeps
    every other, and the record has lost one occurrence of the
    subscription.  When the registry does not hold the key, [event.remove]
    raises an [InvalidRequestError] and nothing has changed.  When the
    registry holds the key and the record lacks the subscription, the
    registry gives the key up and [list.remove] raises a [ValueError], the
    record being as it was. *)
Theorem sqla_remove_one_or_raise (args : list listen_arg) (r : registry) :
  NoDup (listeners r) ->
  (holds (listeners r) args = true ->
   holds (_REGISTERED_SQLA_EVENTS r) args = true ->
   exists r',
     sqla_remove args r = (Return tt, r') /\
     holds (listeners r') args = false /\
     (forall y, y <> args -> holds (listeners r') y = holds (listeners r) y) /\
     (forall y,
        occurrences y (_REGISTERED_SQLA_EVENTS r)
        = occurrences y (_REGISTERED_SQLA_EVENTS r')
          + (if args_eqb args y then 1 else 0))) /\
  (holds (listeners r) args = false ->
   exists e,
     sqla_remove args r = (Raise e, r) /\
     isinstance e ["sqlalchemy.exc.InvalidRequestError"] = true) /\
  (holds (listeners r) args = true ->
   holds (_REGISTERED_SQLA_EVENTS r) args = false ->
   exists e r',
     sqla_remove args r = (Raise e, r') /\
     isinstance e ["ValueError"] = true /\
     _REGISTERED_SQLA_EVENTS r' = _REGISTERED_SQLA_EVENTS r /\
     holds (listeners r') args = false /\
     (forall y, y <> args -> holds (listeners r') y = holds (listeners r) y)).
Proof.
  intros Hnd. unfold sqla_remove, event_remove. split; [|split].
  - intros Hl He.
    destruct (list_remove args (listeners r)) as [ls'|] eqn:Rl;
      [|apply list_remove_none in Rl; congruence].
    destruct (list_remove args (_REGISTERED_SQLA_EVENTS r)) as [evs'|] eqn:Re;
      [|apply list_remove_none in Re; congruence].
    destruct (list_remove_NoDup args Hnd Rl) as (_ & Hgone & Hother).
    eexists. split; [reflexivity|]. cbn [listeners _REGISTERED_SQLA_EVENTS].
    split; [assumption|]. split; [assumption|].
    intros y. now apply list_remove_some.
  - intros Hl. apply list_remove_none in Hl. rewrite Hl.
    eexists. split; reflexivity.
  - intros Hl He.
    destruct (list_remove args (listeners r)) as [ls'|] eqn:Rl;
      [|apply list_remove_none in Rl; congruence].
    apply list_remove_none in He. rewrite He.
    destruct (list_remove_NoDup args Hnd Rl) as (_ & Hgone & Hother).
    eexists _, _. split; [reflexivity|].
    cbn [listeners _REGISTERED_SQLA_EVENTS]. auto.
Qed.

Lemma sqla_remove_one_or_raise_witness :
  (exists r',
      sqla_remove after_flush_subscription
        (sqla_listen after_flush_subscription (Registry [] []))
      = (Return tt, r') /\
      holds (listeners r') after_flush_subscription = false) /\
  (exists e,
      sqla_remove after_flush_subscription (Registry [] [])
      = (Raise e, Registry [] []) /\
      isinstance e ["sqlalchemy.exc.InvalidRequestError"] = true) /\
  (exists e r',
      sqla_remove after_flush_subscription
        (Registry [after_flush_subscription] [])
      = (Raise e, r') /\
      isinstance e ["ValueError"] = true).
Proof.
  split; [|split].
  - destruct (@sqla_remove_one_or_raise after_flush_subscription
                (sqla_listen after_flush_subscription (Registry [] [])))
      as [Hfound _].
    + cbn. constructor; [intros []|constructor].
    + destruct (Hfound eq_refl eq_refl) as (r' & Hrun & Hgone & _). eauto.
  - destruct (@sqla_remove_one_or_raise after_flush_subscription
                (Registry [] [])) as (_ & Hnot & _).
    + constructor.
    + exact (Hnot eq_refl).
  - destruct (@sqla_remove_one_or_raise after_flush_subscription
                (Registry [after_flush_subscription] []))
      as (_ & _ & Hrec).
    + constructor; [intros []|constructor].
    + destruct (Hrec eq_refl eq_refl) as (e & r' & Hrun & Hcls & _). eauto.
Defined.

(** C9, as the claim has it, fails: removing a subscription that was never
    made, or one that was removed already, raises. *)
Lemma sqla_remove_not_found_raises :
  sqla_remove after_flush_subscription (Registry [] [])
  = (Raise (new_exn "sqlalchemy.exc.InvalidRequestError" "No listeners found"),
     Registry [] []) /\
  sqla_remove after_flush_subscription
    (snd (sqla_remove after_flush_subscription
            (sqla_listen after_flush_subscription (Registry [] []))))
  = (Raise (new_exn "sqlalchemy.exc.InvalidRequestError" "No listeners found"),
     Registry [] []) /\
  sqla_remove after_flush_subscription
    (Registry (event_listen after_flush_subscription []) [])
  = (Raise (new_exn "ValueError" "list.remove(x): x not in list"),
     Registry [] []) /\
  ~ (forall args r, exists r', sqla_remove args r = (Return tt, r')).
Proof.
  repeat split; try reflexivity.
  intros H. destruct (H after_flush_subscription (Registry [] [])) as [r' Hr].
  discriminate Hr.
Qed.

(** Teardown leaves the record empty, whatever was removed before. *)
Lemma sqla_remove_all_empties r :
  _REGISTERED_SQLA_EVENTS (sqla_remove_all r) = [].
Proof. reflexivity. Qed.

(* ===================================================================== *)
(** * Properties of the context-manager accessor *)
(* ===================================================================== *)

Lemma get_context_manager_sets s :
  _CTX_MANAGER (snd (get_context_manager s)) = Some (fst (get_context_manager s)).
Proof.
  unfold get_context_manager, _create_context_manager.
  destruct (_CTX_MANAGER s) eqn:H; cbn; auto.
Qed.

Lemma get_context_manager_set s m :
  _CTX_MANAGER s = Some m -> get_context_manager s = (m, s).
Proof. unfold get_context_manager. now intros ->. Qed.

Lemma get_context_manager_times_set s m n :
  _CTX_MANAGER s = Some m -> get_context_manager_times n s = (repeat m n, s).
Proof.
  intros H. induction n as [|n IH]; cbn; [reflexivity|].
  now rewrite (get_context_manager_set _ H), IH.
Qed.

(** C10: once the accessor has been called, every further call returns the
    manager the first call returned and leaves the module as the first call
    left it; the manager is configured by the call that constructs it, and
    by no other. *)
Theorem get_context_manager_idempotent (s : facade) (n : nat) :
  exists m s1,
    get_context_manager s = (m, s1) /\
    get_context_manager_times n s1 = (repeat m n, s1) /\
    _CTX_MANAGER s1 = Some m /\
    configure_calls s1
    = configure_calls s ++
      match _CTX_MANAGER s with
      | None => [(m, context_manager_config)]
      | Some _ => []
      end /\
    constructed s1
    = constructed s + match _CTX_MANAGER s with None => 1 | Some _ => 0 end.
Proof.
  pose proof (get_context_manager_sets s) as Hset.
  destruct (get_context_manager s) as [m s1] eqn:Hcall. cbn [fst snd] in Hset.
  exists m, s1. split; [reflexivity|].
  split; [now apply get_context_manager_times_set|].
  split; [assumption|].
  unfold get_context_manager, _create_context_manager in Hcall.
  destruct (_CTX_MANAGER s); injection Hcall as <- <-; cbn.
  - now rewrite app_nil_r, Nat.add_0_r.
  - split; [reflexivity|lia].
Qed.

(** From import on: any number of calls, one manager, configured once. *)
Example get_context_manager_from_import :
  get_context_manager_times 3 facade_at_import
  = ([0; 0; 0], Facade (Some 0) 1 [(0, context_manager_config)]).
Proof. reflexivity. Qed.

(* ===================================================================== *)
(** * Properties of the commit-time relationship loader *)
(* ===================================================================== *)

Lemma grows_refl Q s : grows Q s s.
Proof.
  constructor; auto. exists []. now rewrite app_nil_r.
Qed.

Lemma grows_trans Q s s1 s2 : grows Q s s1 -> grows Q s1 s2 -> grows Q s s2.
Proof.
  intros [C1 T1 R1 D1 U1 (ls1 & E1 & F1)]
         [C2 T2 R2 D2 U2 (ls2 & E2 & F2)].
  constructor; try congruence; auto.
  - intros o Ho. rewrite U2, U1; auto. now rewrite C1.
  - exists (ls1 ++ ls2). split.
    + now rewrite E2, E1, app_assoc.
    + apply Forall_app. split; [assumption|].
      eapply Forall_impl; [|exact F2]. cbn.
      intros [o k] (Hq & Hin & Hk). cbn [fst snd] in *.
      split; [assumption|]. split; [now rewrite <- C1|].
      destruct (mem_str k (state_dict s o)) eqn:E; [|reflexivity].
      apply D1 in E. congruence.
Qed.

Lemma grows_weaken (Q Q' : nat * string -> Prop) s s1 :
  (forall p, Q p -> Q' p) -> grows Q s s1 -> grows Q' s s1.
Proof.
  intros HQ [C T R D U (ls & E & F)]. constructor; auto.
  exists ls. split; [assumption|].
  eapply Forall_impl; [|exact F]. cbn. intros p (Hq & H). auto.
Qed.

Lemma mem_str_cons k k' l :
  mem_str k (k' :: l) = (String.eqb k k' || mem_str k l).
Proof. reflexivity. Qed.

(** One forced load, on an object of the session, of an attribute not yet
    loaded. *)
Lemma getattr_relationship_grows lazy_load o k s :
  mem_nat o (contents s) = true ->
  mem_str k (state_dict s o) = false ->
  grows (fun p => p = (o, k)) s (getattr_relationship lazy_load o k s).
Proof.
  intros Hin Hk. unfold getattr_relationship.
  constructor;
    cbn [new contents nested _load_rels relationships state_dict loads]; auto.
  - intros o' k' H. destruct (lazy_load o k s); [|assumption].
    destruct (Nat.eqb o' o); [|assumption].
    rewrite mem_str_cons, H. apply orb_true_r.
  - intros o' Ho'. destruct (lazy_load o k s); [|reflexivity].
    destruct (Nat.eqb o' o) eqn:E; [|reflexivity].
    apply Nat.eqb_eq in E. subst o'. congruence.
  - exists [(o, k)]. split; [reflexivity|]. constructor; [|constructor].
    cbn. auto.
Qed.

(** The body of the inner loop. *)
Lemma load_relationship_spec lazy_load o rel s :
  mem_nat o (contents s) = true ->
  grows (loads_eager_of o [rel]) s (snd (load_relationship lazy_load o rel s)) /\
  (fst (load_relationship lazy_load o rel s) = Return tt /\
   (eager rel = true ->
    mem_str (key rel)
      (state_dict (snd (load_relationship lazy_load o rel s)) o) = true)
   \/
   exists e,
     fst (load_relationship lazy_load o rel s) = Raise e /\
     isinstance e ["AssertionError"] = true /\
     eager rel = true /\
     In (o, key rel) (loads (snd (load_relationship lazy_load o rel s))) /\
     mem_str (key rel)
       (state_dict (snd (load_relationship lazy_load o rel s)) o) = false).
Proof.
  intros Hin. unfold load_relationship.
  destruct (eager rel) eqn:He; cbn [negb].
  2:{ cbn. split; [apply grows_refl|]. left. split; [reflexivity|discriminate]. }
  destruct (mem_str (key rel) (state_dict s o)) eqn:Hk.
  { cbn. split; [apply grows_refl|]. left. auto. }
  pose proof (getattr_relationship_grows lazy_load o (key rel) s Hin Hk) as G.
  assert (G' : grows (loads_eager_of o [rel]) s
                 (getattr_relationship lazy_load o (key rel) s)).
  { eapply grows_weaken; [|exact G]. intros p ->. split; [reflexivity|].
    exists rel. cbn. auto. }
  destruct (mem_str (key rel)
              (state_dict (getattr_relationship lazy_load o (key rel) s) o))
    eqn:Hk'; cbn [fst snd]; (split; [exact G'|]).
  - left. auto.
  - right. eexists. split; [reflexivity|]. split; [reflexivity|].
    split; [reflexivity|]. split; [|assumption].
    cbn. apply in_or_app. right. now left.
Qed.

Lemma loads_eager_of_incl o rels rels' p :
  incl rels rels' -> loads_eager_of o rels p -> loads_eager_of o rels' p.
Proof.
  intros Hincl (Ho & rel & Hin & He & Hk). split; [assumption|].
  exists rel. auto.
Qed.

(** The inner loop: every eager relationship of the object is populated
    when the loop runs to its end; it stops at the first one that a forced
    load leaves unpopulated. *)
Lemma load_relationships_spec lazy_load o rels :
  forall s,
  mem_nat o (contents s) = true ->
  grows (loads_eager_of o rels) s (snd (load_relationships lazy_load o rels s)) /\
  (fst (load_relationships lazy_load o rels s) = Return tt /\
   (forall rel, In rel rels -> eager rel = true ->
      mem_str (key rel)
        (state_dict (snd (load_relationships lazy_load o rels s)) o) = true)
   \/
   exists e rel,
     fst (load_relationships lazy_load o rels s) = Raise e /\
     isinstance e ["AssertionError"] = true /\
     In rel rels /\ eager rel = true /\
     In (o, key rel) (loads (snd (load_relationships lazy_load o rels s))) /\
     mem_str (key rel)
       (state_dict (snd (load_relationships lazy_load o rels s)) o) = false).
Proof.
  induction rels as [|rel rest IH]; intros s Hin; cbn [load_relationships].
  - cbn. split; [apply grows_refl|]. left. split; [reflexivity|]. intros _ [].
  - destruct (load_relationship_spec lazy_load o rel s Hin) as (G1 & Hend).
    destruct (load_relationship lazy_load o rel s) as [r1 s1].
    cbn [fst snd] in *.
    assert (G1' : grows (loads_eager_of o (rel :: rest)) s s1).
    { eapply grows_weaken; [|exact G1]. intros p.
      apply loads_eager_of_incl. intros x [<-|[]]. now left. }
    destruct Hend as [[-> Hpop] | (e & -> & Hcls & He & Hload & Hno)].
    + assert (Hin1 : mem_nat o (contents s1) = true)
        by now rewrite (grows_contents G1).
      destruct (IH s1 Hin1) as (G2 & Hend2).
      destruct (load_relationships lazy_load o rest s1) as [r2 s2].
      cbn [fst snd] in *.
      assert (G2' : grows (loads_eager_of o (rel :: rest)) s1 s2).
      { eapply grows_weaken; [|exact G2]. intros p.
        apply loads_eager_of_incl. intros x Hx. now right. }
      split; [eapply grows_trans; eassumption|].
      destruct Hend2 as [[-> Hpop2] | (e & rel' & -> & Hcls & Hin' & He & Hl & Hno)].
      * left. split; [reflexivity|].
        intros rel' [<-|Hin'] He; [|now apply Hpop2].
        apply (grows_dict G2). now apply Hpop.
      * right. exists e, rel'. repeat split; auto. now right.
    + cbn [fst snd]. split; [exact G1'|].
      right. exists e, rel. repeat split; auto. now left.
Qed.

(** The body of the outer loop: an object outside the session is passed
    over. *)
Lemma load_object_detached lazy_load o s :
  mem_nat o (contents s) = false ->
  load_object lazy_load o s = (Return tt, s).
Proof. unfold load_object. now intros ->. Qed.

Lemma load_object_spec lazy_load o s :
  grows (loads_eager_of o (relationships s o)) s
    (snd (load_object lazy_load o s)) /\
  (fst (load_object lazy_load o s) = Return tt /\
   (mem_nat o (contents s) = true ->
    forall rel, In rel (relationships s o) -> eager rel = true ->
      mem_str (key rel) (state_dict (snd (load_object lazy_load o s)) o) = true)
   \/
   exists e rel,
     fst (load_object lazy_load o s) = Raise e /\
     isinstance e ["AssertionError"] = true /\
     mem_nat o (contents s) = true /\
     In rel (relationships s o) /\ eager rel = true /\
     In (o, key rel) (loads (snd (load_object lazy_load o s))) /\
     mem_str (key rel) (state_dict (snd (load_object lazy_load o s)) o) = false).
Proof.
  unfold load_object. destruct (mem_nat o (contents s)) eqn:Hin; cbn [negb].
  2:{ cbn [fst snd]. split; [apply grows_refl|]. left.
      split; [reflexivity|discriminate]. }
  set (s1 := enable_relationship_loading o s).
  assert (G0 : grows (loads_eager_of o (relationships s o)) s s1).
  { constructor; cbn; auto. exists []. now rewrite app_nil_r. }
  destruct (load_relationships_spec lazy_load o (relationships s1 o) s1 Hin)
    as (G & Hend).
  change (relationships s1 o) with (relationships s o) in *.
  split; [eapply grows_trans; eassumption|].
  destruct Hend as [[Hret Hpop] | (e & rel & Hr & Hcls & Hrel & He & Hl & Hno)].
  - left. auto.
  - right. exists e, rel. repeat split; auto.
Qed.

Lemma loads_eager_among_of o objs R p :
  In o objs -> loads_eager_of o (R o) p -> loads_eager_among objs R p.
Proof.
  intros Hin (Ho & rel & Hrel & He & Hk). subst o. split; [assumption|].
  exists rel. auto.
Qed.

Lemma loads_eager_among_incl objs objs' R p :
  incl objs objs' -> loads_eager_among objs R p -> loads_eager_among objs' R p.
Proof. intros Hincl (Hin & H). split; auto. Qed.

(** The outer loop: every eager relationship of every captured object of
    the session is populated when the loop runs to its end; it stops at the
    first forced load that leaves its attribute unpopulated. *)
Lemma load_objects_spec lazy_load objs :
  forall s,
  grows (loads_eager_among objs (relationships s)) s
    (snd (load_objects lazy_load objs s)) /\
  (fst (load_objects lazy_load objs s) = Return tt /\
   (forall o rel,
      In o objs -> mem_nat o (contents s) = true ->
      In rel (relationships s o) -> eager rel = true ->
      mem_str (key rel)
        (state_dict (snd (load_objects lazy_load objs s)) o) = true)
   \/
   aborted_on objs (relationships s) (load_objects lazy_load objs s)).
Proof.
  induction objs as [|o rest IH]; intros s; cbn [load_objects].
  - cbn [fst snd]. split; [apply grows_refl|]. left.
    split; [reflexivity|]. intros o rel [].
  - destruct (load_object_spec lazy_load o s) as (G1 & Hend).
    destruct (load_object lazy_load o s) as [r1 s1]. cbn [fst snd] in *.
    assert (G1' : grows (loads_eager_among (o :: rest) (relationships s)) s s1).
    { eapply grows_weaken; [|exact G1]. intros p.
      apply loads_eager_among_of. now left. }
    destruct Hend as [[-> Hpop] | (e & rel & -> & Hcls & Hin & Hrel & He & Hl & Hno)].
    + destruct (IH s1) as (G2 & Hend2).
      destruct (load_objects lazy_load rest s1) as [r2 s2]. cbn [fst snd] in *.
      rewrite (grows_relationships G1) in *.
      assert (G2' : grows (loads_eager_among (o :: rest) (relationships s)) s1 s2).
      { eapply grows_weaken; [|exact G2]. intros p.
        apply loads_eager_among_incl. intros x Hx. now right. }
      split; [eapply grows_trans; eassumption|].
      destruct Hend2 as [[-> Hpop2] | (e & o' & rel & Hr & Hcls & Ho' & Hin' & Hrel & He & Hl & Hno)].
      * left. split; [reflexivity|].
        intros o' rel [<-|Ho'] Hin' Hrel He.
        -- apply (grows_dict G2). now apply Hpop.
        -- apply Hpop2; auto. now rewrite (grows_contents G1).
      * right. exists e, o', rel. cbn [fst snd] in *.
        repeat split; auto. now right.
    + cbn [fst snd]. split; [exact G1'|].
      right. exists e, o, rel. cbn [fst snd].
      repeat split; auto; [now left|]. now rewrite (grows_contents G1).
Qed.

Lemma mem_nat_In x l : mem_nat x l = true <-> In x l.
Proof.
  unfold mem_nat. rewrite existsb_exists. split.
  - intros (y & Hy & E). apply Nat.eqb_eq in E. now subst.
  - intros H. exists x. split; [assumption|apply Nat.eqb_refl].
Qed.

(** [s.update(items)] holds what [s] held and the items. *)
Lemma set_update_In items :
  forall s x, In x (set_update s items) <-> In x s \/ In x items.
Proof.
  unfold set_update. induction items as [|y rest IH]; intros s x; cbn.
  - tauto.
  - rewrite IH. destruct (mem_nat y s) eqn:E.
    + apply mem_nat_In in E. split; [tauto|].
      intros [H|[<-|H]]; auto.
    + rewrite in_app_iff. cbn. tauto.
Qed.

(** The flush the hook forces captures every pending object and touches
    nothing else the loader looks at. *)
Lemma before_commit_flush_frame s :
  contents (before_commit_flush s) = contents s /\
  nested (before_commit_flush s) = nested s /\
  relationships (before_commit_flush s) = relationships s /\
  state_dict (before_commit_flush s) = state_dict s /\
  loads (before_commit_flush s) = loads s /\
  (forall o, In o (new s) -> In o (captured (before_commit_flush s))).
Proof.
  unfold before_commit_flush. destruct (new s) as [|x rest] eqn:Hnew.
  - repeat split; auto. intros o [].
  - repeat split; auto. intros o Ho. unfold captured. cbn.
    rewrite Hnew. apply set_update_In. now right.
Qed.

Lemma _load_one_to_manys_eq lazy_load s :
  _load_one_to_manys lazy_load s =
  if nested (before_commit_flush s) then (Return tt, before_commit_flush s)
  else load_objects lazy_load (captured (before_commit_flush s))
         (snd (pop_load_rels (before_commit_flush s))).
Proof. reflexivity. Qed.

(** C7: the before-commit hook.  The flush it forces captures every
    pending object.  On a nested transaction it does nothing more.
    Otherwise objects that left the session are untouched; what it loads
    are eager relationships ('joined', 'subquery') of captured objects of
    the session, not populated before; and either it returns, and every
    such relationship is populated, or it raises an [AssertionError] for
    one that a forced load left unpopulated. *)
Theorem load_one_to_manys_materializes
  (lazy_load : nat -> string -> session -> bool) (s : session) :
  (forall o, In o (new s) -> In o (captured (before_commit_flush s))) /\
  (nested s = true ->
   _load_one_to_manys lazy_load s = (Return tt, before_commit_flush s)) /\
  (nested s = false ->
   (forall o, mem_nat o (contents s) = false ->
      state_dict (snd (_load_one_to_manys lazy_load s)) o = state_dict s o) /\
   (exists ls,
      loads (snd (_load_one_to_manys lazy_load s)) = loads s ++ ls /\
      Forall (fun p : nat * string =>
                loads_eager_among (captured (before_commit_flush s))
                  (relationships s) p /\
                mem_nat (fst p) (contents s) = true /\
                mem_str (snd p) (state_dict s (fst p)) = false) ls) /\
   (fst (_load_one_to_manys lazy_load s) = Return tt /\
    (forall o rel,
       In o (captured (before_commit_flush s)) ->
       mem_nat o (contents s) = true ->
       In rel (relationships s o) -> eager rel = true ->
       mem_str (key rel)
         (state_dict (snd (_load_one_to_manys lazy_load s)) o) = true)
    \/
    aborted_on (captured (before_commit_flush s)) (relationships s)
      (_load_one_to_manys lazy_load s))).
Proof.
  destruct (before_commit_flush_frame s) as (Hc & Hn & Hr & Hd & Hl & Hcap).
  split; [exact Hcap|]. rewrite _load_one_to_manys_eq, Hn. split.
  - now intros ->.
  - intros ->.
    set (s2 := snd (pop_load_rels (before_commit_flush s))).
    assert (Hc2 : contents s2 = contents s) by exact Hc.
    assert (Hr2 : relationships s2 = relationships s) by exact Hr.
    assert (Hd2 : state_dict s2 = state_dict s) by exact Hd.
    assert (Hl2 : loads s2 = loads s) by exact Hl.
    destruct (load_objects_spec lazy_load (captured (before_commit_flush s)) s2)
      as (G & Hend).
    rewrite Hr2 in *.
    split.
    { intros o Ho. rewrite (grows_detached G); [now rewrite Hd2|].
      now rewrite Hc2. }
    split.
    { destruct (grows_loads G) as (ls & E & F). exists ls.
      split; [now rewrite E, Hl2|].
      eapply Forall_impl; [|exact F].
      intros p H. cbn beta in H. destruct H as (Hq & Hin & Hk).
      split; [exact Hq|].
      split; [rewrite <- Hc2; exact Hin | rewrite <- Hd2; exact Hk]. }
    destruct Hend as [[Hret Hpop] | Habort].
    + left. split; [assumption|]. intros o rel Ho Hin Hrel He.
      apply Hpop; auto. now rewrite Hc2.
    + right. exact Habort.
Qed.

Example commit_loads_eager_relationships :
  let r := _load_one_to_manys loads_all committing_session in
  fst r = Return tt /\
  state_dict (snd r) 1 = ["fixed_ips"; "dns"] /\
  state_dict (snd r) 2 = [] /\
  loads (snd r) = [(1, "fixed_ips")].
Proof. vm_compute. auto. Qed.

Lemma load_one_to_manys_materializes_witness :
  (exists e s',
      _load_one_to_manys loads_none committing_session = (Raise e, s') /\
      isinstance e ["AssertionError"] = true) /\
  mem_str "fixed_ips"
    (state_dict (snd (_load_one_to_manys loads_all committing_session)) 1) = true.
Proof.
  split.
  - destruct (load_one_to_manys_materializes loads_none committing_session)
      as (_ & _ & Hcommit).
    destruct (Hcommit eq_refl) as (_ & _ & [[Hret _] | Habort]).
    + discriminate Hret.
    + destruct Habort as (e & o & rel & Hr & Hcls & _).
      destruct (_load_one_to_manys loads_none committing_session) as [r s'].
      cbn [fst] in Hr. subst r. eauto.
  - destruct (load_one_to_manys_materializes loads_all committing_session)
      as (_ & _ & Hcommit).
    destruct (Hcommit eq_refl) as (_ & _ & [[_ Hpop] | Habort]).
    + apply (Hpop 1 (Relationship "fixed_ips" "joined")).
      * vm_compute. auto.
      * reflexivity.
      * left. reflexivity.
      * reflexivity.
    + destruct Habort as (e & o & rel & Hr & _). discriminate Hr.
Defined.

(* ===================================================================== *)
(** * Further properties of the classifier *)
(* ===================================================================== *)

Lemma isinstance_nil e : isinstance e [] = false.
Proof. reflexivity. Qed.

Lemma isinstance_app e a b :
  isinstance e (a ++ b) = isinstance e a || isinstance e b.
Proof. unfold isinstance. apply existsb_app. Qed.

Lemma existsb_orb A (f g : A -> bool) l :
  existsb (fun x => f x || g x) l = existsb f l || existsb g l.
Proof.
  induction l as [|x l IH]; cbn; [reflexivity|].
  rewrite IH. destruct (f x), (g x), (existsb f l), (existsb g l); reflexivity.
Qed.

Lemma existsb_ext_Forall A (f g : A -> bool) l :
  Forall (fun x => f x = g x) l -> existsb f l = existsb g l.
Proof.
  induction 1 as [|x l Hx _ IH]; cbn; [reflexivity|]. now rewrite Hx, IH.
Qed.

(** An empty tuple of kinds matches nothing. *)
Lemma nested_instance_nil e : _is_nested_instance e [] = false.
Proof.
  induction e as [m s f l i x IHl IHi _] using exn_nested_ind.
  rewrite _is_nested_instance_eq, isinstance_nil.
  cbn [inner_exceptions inner_exception].
  destruct (isinstance _ [exceptions.MultipleExceptions]).
  - rewrite (existsb_ext_Forall _ (fun _ => false) IHl).
    clear. induction l; cbn; auto.
  - destruct (isinstance _ [db_exc.DBError]); [|reflexivity].
    destruct i as [c|]; [|reflexivity]. now apply IHi.
Qed.

(** X1: matching a tuple of kinds put together from two tuples is matching
    one of the two. *)
Theorem nested_instance_app (e : exn) (a b : list pyclass) :
  _is_nested_instance e (a ++ b)
  = _is_nested_instance e a || _is_nested_instance e b.
Proof.
  induction e as [m s f l i x IHl IHi _] using exn_nested_ind.
  rewrite !(_is_nested_instance_eq (Exn m s f l i x)), isinstance_app.
  cbn [inner_exceptions inner_exception].
  destruct (isinstance _ a); [reflexivity|].
  destruct (isinstance _ b); cbn [orb]; [now rewrite orb_true_r|].
  destruct (isinstance _ [exceptions.MultipleExceptions]).
  - rewrite <- existsb_orb. now apply existsb_ext_Forall.
  - destruct (isinstance _ [db_exc.DBError]); [|reflexivity].
    destruct i as [c|]; [|reflexivity]. now apply IHi.
Qed.

(** X2: an exception that is not a database error, not an aggregate and
    not of a transient kind is not retriable, whatever it prints as and
    whatever it carries. *)
Theorem is_retriable_needs_known_class (e : exn) :
  isinstance e RETRIABLE_KINDS = false ->
  isinstance e [exceptions.MultipleExceptions] = false ->
  isinstance e [db_exc.DBError] = false ->
  is_retriable e = false.
Proof.
  intros Hk Hm Hd. unfold is_retriable.
  destruct (truthy _); [reflexivity|].
  rewrite !_is_nested_instance_eq, Hk, Hm, Hd. reflexivity.
Qed.

Lemma is_retriable_needs_known_class_witness :
  is_retriable
    (Exn ["ValueError"] "error 1305" None [flagged_deadlock]
       (Some savepoint_error) (Some nested_stale_data)) = false.
Proof.
  apply is_retriable_needs_known_class; reflexivity.
Defined.

(* ===================================================================== *)
(** * Further properties of the tagger and of [retry_db_errors] *)
(* ===================================================================== *)

Lemma _tag_retriables_as_unretriable_eq U (f : pyfun U) args kwargs w :
  _tag_retriables_as_unretriable f args kwargs w =
  match f args kwargs w with
  | (Raise e, w') =>
      if is_retriable e
      then (Raise (setattr_RETRY_EXCEEDED e (VBool true)), w')
      else (Raise e, w')
  | r => r
  end.
Proof. reflexivity. Qed.

Lemma same_but_flag_setattr e v : same_but_flag (setattr_RETRY_EXCEEDED e v) e.
Proof. destruct e. repeat split. Qed.

Lemma same_but_flag_refl e : same_but_flag e e.
Proof. repeat split. Qed.

(** What the tagger lets out is never retriable. *)
Lemma tagged_not_retriable U (f : pyfun U) args kwargs w e w' :
  _tag_retriables_as_unretriable f args kwargs w = (Raise e, w') ->
  is_retriable e = false.
Proof.
  rewrite _tag_retriables_as_unretriable_eq.
  destruct (f args kwargs w) as [[v|e0|b] w0]; try discriminate.
  destruct (is_retriable e0) eqn:He; intros [= <- <-]; auto.
  apply is_retriable_setattr.
Qed.

(** X3: whatever exception a call through [retry_db_errors] ends with, the
    classifier rejects it: no retry decorator further up retries it. *)
Theorem retry_db_errors_raises_unretriable (U : Type) (f : pyfun U)
  (args : list pyval) (kwargs : list (string * pyval)) (w w' : world U)
  (e : exn) :
  retry_db_errors f args kwargs w = (Raise e, w') ->
  is_retriable e = false.
Proof. unfold retry_db_errors. apply tagged_not_retriable. Qed.

Lemma retry_db_errors_raises_unretriable_witness :
  is_retriable (new_exn "ValueError" "bad value with 1305 in it") = false.
Proof.
  apply (@retry_db_errors_raises_unretriable unit invalid_input [] []
           (World 0 [] [] tt) (World 0 [] [] tt)).
  reflexivity.
Defined.

(** X4: the tagger re-raises the exception of the function it wraps, the
    same in class, message and inner exceptions; it sets the flag when the
    exception is retriable and changes nothing when it is not; and it leaves
    the world as the function left it. *)
Theorem tagger_keeps_the_exception (U : Type) (f : pyfun U)
  (args : list pyval) (kwargs : list (string * pyval)) (w w' : world U)
  (e0 : exn) :
  f args kwargs w = (Raise e0, w') ->
  exists e,
    _tag_retriables_as_unretriable f args kwargs w = (Raise e, w') /\
    same_but_flag e e0 /\
    (is_retriable e0 = true -> flagged e) /\
    (is_retriable e0 = false -> e = e0).
Proof.
  intros Hf. rewrite _tag_retriables_as_unretriable_eq, Hf.
  destruct (is_retriable e0) eqn:He.
  - exists (setattr_RETRY_EXCEEDED e0 (VBool true)).
    split; [reflexivity|]. split; [apply same_but_flag_setattr|].
    split; [intros _; apply flagged_setattr|discriminate].
  - exists e0. split; [reflexivity|]. split; [apply same_but_flag_refl|].
    split; [discriminate|reflexivity].
Qed.

Lemma tagger_keeps_the_exception_witness :
  exists e,
    _tag_retriables_as_unretriable invalid_input [] [] (World 0 [] [] tt)
    = (Raise e, World 0 [] [] tt) /\
    e = new_exn "ValueError" "bad value with 1305 in it".
Proof.
  destruct (@tagger_keeps_the_exception unit invalid_input [] []
              (World 0 [] [] tt) (World 0 [] [] tt) _ eq_refl)
    as (e & Hrun & _ & _ & Hsame).
  exists e. split; [exact Hrun|]. apply Hsame. reflexivity.
Defined.

(** X5: tagging twice is tagging once. *)
Theorem tagger_idempotent (U : Type) (f : pyfun U)
  (args : list pyval) (kwargs : list (string * pyval)) (w : world U) :
  _tag_retriables_as_unretriable (_tag_retriables_as_unretriable f) args kwargs w
  = _tag_retriables_as_unretriable f args kwargs w.
Proof.
  rewrite (_tag_retriables_as_unretriable_eq (_tag_retriables_as_unretriable f)).
  destruct (_tag_retriables_as_unretriable f args kwargs w) as [[v|e|b] w'] eqn:H;
    try reflexivity.
  now rewrite (tagged_not_retriable _ _ _ _ H).
Qed.

(* ===================================================================== *)
(** * Further properties of the exception-to-retry converter *)
(* ===================================================================== *)

Lemma is_retriable_RetryRequest_of e : is_retriable (RetryRequest_of e) = true.
Proof. reflexivity. Qed.

Lemma existsb_eqb_not_In (t : string) l :
  ~ In t l -> existsb (String.eqb t) l = false.
Proof.
  induction l as [|x rest IH]; cbn; [reflexivity|]. intros H.
  destruct (String.eqb t x) eqn:E.
  - apply String.eqb_eq in E. exfalso. apply H. now left.
  - apply IH. intros Hin. apply H. now right.
Qed.

Lemma isinstance_RetryRequest_of e etypes :
  Forall (fun t => ~ In t (db_exc.RetryRequest :: exception_bases)) etypes ->
  isinstance (RetryRequest_of e) etypes = false.
Proof.
  unfold isinstance. cbn [e_mro RetryRequest_of].
  induction 1 as [|t rest Ht _ IH]; cbn [existsb]; [reflexivity|].
  rewrite IH, orb_false_r. now apply existsb_eqb_not_In.
Qed.

Lemma nested_instance_RetryRequest_of e etypes :
  Forall (fun t => ~ In t (db_exc.RetryRequest :: exception_bases)) etypes ->
  _is_nested_instance (RetryRequest_of e) etypes = false.
Proof.
  intros Hno. rewrite _is_nested_instance_eq.
  now rewrite (@isinstance_RetryRequest_of e etypes Hno).
Qed.

(** X6: the request [exc_to_retry] raises for a matching exception is
    retriable, also when the exception it carries was flagged as exhausted:
    the flag stays on the original and the request gets the retries of a
    new exception. *)
Theorem exc_to_retry_raises_retriable (U A : Type) (etypes : list pyclass)
  (block : call U A) (w w' : world U) (e : exn) :
  block w = (Raise e, w') ->
  _is_nested_instance e etypes = true ->
  exists r,
    exc_to_retry etypes block w = (Raise r, w') /\
    is_retriable r = true /\
    inner_exc r = Some e /\
    e_retry_exceeded r = None.
Proof.
  intros Hblock Hmatch. rewrite exc_to_retry_eq, Hblock, Hmatch.
  exists (RetryRequest_of e). repeat split.
Qed.

Lemma exc_to_retry_raises_retriable_witness :
  is_retriable
    (Exn [db_exc.DBDeadlock; db_exc.DBError] "deadlock" (Some (VBool true))
       [] None None) = false /\
  exists r w',
    exc_to_retry [db_exc.DBDeadlock] exhausted_block (World 0 [] [] tt)
    = (Raise r, w') /\
    is_retriable r = true.
Proof.
  split; [reflexivity|].
  destruct (@exc_to_retry_raises_retriable unit pyval [db_exc.DBDeadlock]
              exhausted_block (World 0 [] [] tt) _ _ eq_refl eq_refl)
    as (r & Hrun & Hr & _).
  eauto.
Defined.

(** X7: one [exc_to_retry] block inside another for the same kinds does
    what one block does, when no kind is [RetryRequest] or a class a
    [RetryRequest] is an instance of ([Exception], [BaseException],
    [object]); with such a kind the outer block converts the request the
    inner one raised once more. *)
Theorem exc_to_retry_idempotent (U A : Type) (etypes : list pyclass)
  (block : call U A) (w : world U) :
  Forall (fun t => ~ In t (db_exc.RetryRequest :: exception_bases)) etypes ->
  exc_to_retry etypes (exc_to_retry etypes block) w
  = exc_to_retry etypes block w.
Proof.
  intros Hno. rewrite (exc_to_retry_eq etypes (exc_to_retry etypes block)).
  rewrite exc_to_retry_eq.
  destruct (block w) as [[v|e|b] w']; try reflexivity.
  destruct (_is_nested_instance e etypes) eqn:He.
  - now rewrite (@nested_instance_RetryRequest_of e etypes Hno).
  - now rewrite He.
Qed.

Lemma exc_to_retry_idempotent_witness :
  exc_to_retry ["IpAddressAlreadyAllocated"]
    (exc_to_retry ["IpAddressAlreadyAllocated"] conflicting_block)
    (World 0 [] [] tt)
  = exc_to_retry ["IpAddressAlreadyAllocated"] conflicting_block
      (World 0 [] [] tt).
Proof.
  apply exc_to_retry_idempotent.
  constructor; [|constructor].
  cbn. intros [H|[H|[H|[H|[]]]]]; discriminate H.
Defined.

(** With [Exception] among the kinds the blocks do not collapse: the outer
    one wraps the inner one's request in a request of its own. *)
Example exc_to_retry_twice_for_Exception :
  exists e,
    fst (conflicting_block (World 0 [] [] tt)) = Raise e /\
    fst (exc_to_retry ["Exception"] conflicting_block (World 0 [] [] tt))
    = Raise (RetryRequest_of e) /\
    fst (exc_to_retry ["Exception"]
           (exc_to_retry ["Exception"] conflicting_block) (World 0 [] [] tt))
    = Raise (RetryRequest_of (RetryRequest_of e)).
Proof. eexists. repeat split. Qed.

(** X8: with an empty tuple of kinds the block is left as it is. *)
Theorem exc_to_retry_no_kinds (U A : Type) (block : call U A) (w : world U) :
  exc_to_retry [] block w = block w.
Proof.
  rewrite exc_to_retry_eq. destruct (block w) as [[v|e|b] w']; try reflexivity.
  now rewrite nested_instance_nil.
Qed.

(* ===================================================================== *)
(** * Further properties of the context-sensitive gate *)
(* ===================================================================== *)

(** [names.index(name)] fails exactly when [name] is not in [names]. *)
Lemma list_index_none name names :
  list_index name names = None <-> ~ In name names.
Proof.
  induction names as [|x rest IH]; cbn; [tauto|].
  destruct (String.eqb x name) eqn:E.
  - apply String.eqb_eq in E. subst. split; [discriminate|]. tauto.
  - apply String.eqb_neq in E.
    destruct (list_index name rest); cbn.
    + split; [discriminate|]. intros H. exfalso.
      apply H. right. apply Decidable.not_not.
      * destruct (in_dec string_dec name rest); [left|right]; assumption.
      * intros Hn. now apply IH in Hn.
    + split; [|reflexivity]. intros _ [H|H]; [congruence|].
      now apply IH in H.
Qed.

(** [names.index(name)] is the first position of [name]. *)
Lemma list_index_first name names :
  forall i,
    list_index name names = Some i ->
    nth_error names i = Some name /\
    forall j, j < i -> nth_error names j <> Some name.
Proof.
  induction names as [|x rest IH]; cbn; [discriminate|]. intros i.
  destruct (String.eqb x name) eqn:E.
  - intros [= <-]. apply String.eqb_eq in E. subst. cbn. split; [reflexivity|].
    intros j Hj. lia.
  - apply String.eqb_neq in E.
    destruct (list_index name rest) as [k|]; [|discriminate]. cbn.
    intros [= <-]. destruct (IH k eq_refl) as [Hk Hfirst]. cbn.
    split; [assumption|]. intros [|j] Hj; cbn.
    + congruence.
    + apply Hfirst. lia.
Qed.

(** X9: decorating with [retry_if_session_inactive] succeeds exactly when
    the function has a parameter of the given name; when it has none, the
    decoration itself raises a [RuntimeError] that names the parameter. *)
Theorem retry_if_session_inactive_needs_parameter (U : Type)
  (context_var_name : string) (f : pyfunction U) :
  ((exists wrapped, retry_if_session_inactive context_var_name f = inr wrapped)
   <-> In context_var_name (argnames f)) /\
  (forall e,
      retry_if_session_inactive context_var_name f = inl e ->
      isinstance e ["RuntimeError"] = true /\
      str e = ("Could not find position of var " ++ context_var_name)%string).
Proof.
  unfold retry_if_session_inactive.
  destruct (list_index context_var_name (argnames f)) as [i|] eqn:Hi.
  - split; [|discriminate]. split; [intros _|eauto].
    destruct (list_index_first _ _ Hi) as [Hn _].
    eapply nth_error_In; eassumption.
  - apply list_index_none in Hi. split.
    + split; [intros [g H]; discriminate H | tauto].
    + intros e [= <-]. split; reflexivity.
Qed.

(** X10: a gated call that passes the context neither by keyword nor among
    its positional arguments raises an [IndexError]; the function is not
    called and the world is as it was. *)
Theorem gated_call_without_context (U : Type) (context_var_name : string)
  (f : pyfunction U) (wrapped : pyfun U) (ctx_arg_index : nat)
  (args : list pyval) (kwargs : list (string * pyval)) (w : world U) :
  retry_if_session_inactive context_var_name f = inr wrapped ->
  list_index context_var_name (argnames f) = Some ctx_arg_index ->
  kwargs_get context_var_name kwargs = None ->
  List.length args <= ctx_arg_index ->
  exists e,
    wrapped args kwargs w = (Raise e, w) /\
    isinstance e ["IndexError"] = true.
Proof.
  unfold retry_if_session_inactive. intros Hdec Hi Hkw Hlen.
  rewrite Hi in Hdec. injection Hdec as <-.
  unfold locate_context. rewrite Hkw.
  apply nth_error_None in Hlen. rewrite Hlen.
  eexists. split; reflexivity.
Qed.

Lemma gated_call_without_context_witness :
  match retry_if_session_inactive "context" update_port with
  | inr wrapped =>
      exists e,
        wrapped [VObj 9] [("port", VDict 1 [])] (World 5 [] [] (tt, 0))
        = (Raise e, World 5 [] [] (tt, 0))
  | inl _ => False
  end.
Proof.
  destruct (retry_if_session_inactive "context" update_port)
    as [e|wrapped] eqn:Hdec; [discriminate Hdec|].
  destruct (@gated_call_without_context (unit * nat) "context" update_port
              wrapped 1 [VObj 9] [("port", VDict 1 [])]
              (World 5 [] [] (tt, 0)) Hdec eq_refl eq_refl)
    as (e & Hrun & _).
  - cbn. lia.
  - eauto.
Defined.

(** X11: the function [retry_if_session_inactive] returns decides by the
    session of the context passed by keyword when there is one, and
    otherwise by that of the positional argument at the first parameter of
    the given name: with that session active it is the function itself,
    with it inactive the [retry_db_errors] version. *)
Theorem gate_reads_keyword_then_position (U : Type) (context_var_name : string)
  (f : pyfunction U) (wrapped : pyfun U)
  (args : list pyval) (kwargs : list (string * pyval)) (w : world U) :
  retry_if_session_inactive context_var_name f = inr wrapped ->
  exists i,
    nth_error (argnames f) i = Some context_var_name /\
    (forall j, j < i -> nth_error (argnames f) j <> Some context_var_name) /\
    forall c,
      kwargs_get context_var_name kwargs = Some (VObj c) \/
      (kwargs_get context_var_name kwargs = None /\
       nth_error args i = Some (VObj c)) ->
      wrapped args kwargs w
      = if existsb (Nat.eqb c) (active_sessions w)
        then body f args kwargs w
        else retry_db_errors (body f) args kwargs w.
Proof.
  unfold retry_if_session_inactive.
  destruct (list_index context_var_name (argnames f)) as [i|] eqn:Hi;
    [|discriminate].
  intros [= <-]. destruct (list_index_first _ _ Hi) as [Hn Hfirst].
  exists i. split; [assumption|]. split; [assumption|].
  intros c [Hkw|[Hkw Hpos]]; unfold locate_context; rewrite Hkw;
    [|rewrite Hpos]; cbn [session_is_active];
    now destruct (existsb (Nat.eqb c) (active_sessions w)).
Qed.

Lemma gate_reads_keyword_then_position_witness :
  match retry_if_session_inactive "context" update_port with
  | inr wrapped =>
      call_count (snd (wrapped [VObj 9]
                         [("port", VDict 1 []); ("context", VObj 0)]
                         (World 5 [] [0] (tt, 0)))) = 1 /\
      call_count (snd (wrapped [VObj 9; VObj 0; VDict 1 []] []
                         (World 5 [] [0] (tt, 0)))) = 1
  | inl _ => False
  end.
Proof.
  destruct (retry_if_session_inactive "context" update_port)
    as [e|wrapped] eqn:Hdec; [discriminate Hdec|].
  split.
  - destruct (@gate_reads_keyword_then_position (unit * nat) "context"
                update_port wrapped [VObj 9]
                [("port", VDict 1 []); ("context", VObj 0)]
                (World 5 [] [0] (tt, 0)) Hdec)
      as (i & _ & _ & Hgate).
    rewrite (Hgate 0 (or_introl eq_refl)). reflexivity.
  - destruct (@gate_reads_keyword_then_position (unit * nat) "context"
                update_port wrapped [VObj 9; VObj 0; VDict 1 []] []
                (World 5 [] [0] (tt, 0)) Hdec)
      as (i & Hn & _ & Hgate).
    destruct i as [|[|i]]; cbn in Hn; try discriminate Hn.
    + rewrite (Hgate 0 (or_intror (conj eq_refl eq_refl))). reflexivity.
    + destruct i as [|i]; [discriminate Hn|]. destruct i; discriminate Hn.
Defined.

(* ===================================================================== *)
(** * Further properties of the event registry *)
(* ===================================================================== *)

Lemma args_eqb_refl a : args_eqb a a = true.
Proof. now apply args_eqb_eq. Qed.

Lemma list_remove_last x l :
  holds l x = false -> list_remove x (l ++ [x]) = Some l.
Proof.
  induction l as [|y rest IH]; cbn.
  - intros _. now rewrite args_eqb_refl.
  - destruct (args_eqb y x); cbn; [discriminate|].
    intros H. now rewrite (IH H).
Qed.

(** X12: removing a subscription just made through [sqla_listen] returns
    and puts the registry back as it was, when the subscription was not
    held before. *)
Theorem sqla_listen_then_remove (args : list listen_arg) (r : registry) :
  holds (listeners r) args = false ->
  holds (_REGISTERED_SQLA_EVENTS r) args = false ->
  sqla_remove args (sqla_listen args r) = (Return tt, r).
Proof.
  intros Hl He. unfold sqla_remove, sqla_listen, event_remove, event_listen.
  cbn [listeners _REGISTERED_SQLA_EVENTS].
  change (existsb (fun y => args_eqb y args) (listeners r))
    with (holds (listeners r) args).
  rewrite Hl, (list_remove_last _ _ Hl), (list_remove_last _ _ He).
  now destruct r.
Qed.

Lemma sqla_listen_then_remove_witness :
  sqla_remove after_flush_subscription
    (sqla_listen after_flush_subscription
       (Registry [[ARef 1; AName "before_commit"; ARef 3]]
                 [[ARef 1; AName "before_commit"; ARef 3]]))
  = (Return tt,
     Registry [[ARef 1; AName "before_commit"; ARef 3]]
              [[ARef 1; AName "before_commit"; ARef 3]]).
Proof.
  apply sqla_listen_then_remove; reflexivity.
Defined.

(** One step of the teardown: the key is given up, or was not held. *)
Lemma remove_or_pass a ls :
  NoDup ls ->
  NoDup (match event_remove a ls with Some ls' => ls' | None => ls end) /\
  forall y,
    holds (match event_remove a ls with Some ls' => ls' | None => ls end) y
    = holds ls y && negb (args_eqb a y).
Proof.
  intros Hnd. unfold event_remove.
  destruct (list_remove a ls) as [ls'|] eqn:R.
  - destruct (list_remove_NoDup a Hnd R) as (Hnd' & Hgone & Hother).
    split; [assumption|]. intros y. destruct (args_eqb a y) eqn:E.
    + apply args_eqb_eq in E. subst y. rewrite Hgone. now rewrite andb_false_r.
    + rewrite andb_true_r. apply Hother.
      intros ->. now rewrite args_eqb_refl in E.
  - split; [assumption|]. intros y. destruct (args_eqb a y) eqn:E.
    + apply args_eqb_eq in E. subst y. apply list_remove_none in R.
      now rewrite R.
    + now rewrite andb_true_r.
Qed.

(** What removing the recorded subscriptions one by one, passing over those
    already gone, leaves of the registry's keys. *)
Lemma remove_each_keys evs :
  forall ls,
    NoDup ls ->
    NoDup (fold_left
             (fun ls args =>
                match event_remove args ls with
                | Some ls' => ls'
                | None => ls
                end) evs ls) /\
    forall y,
      holds (fold_left
               (fun ls args =>
                  match event_remove args ls with
                  | Some ls' => ls'
                  | None => ls
                  end) evs ls) y
      = holds ls y && negb (holds evs y).
Proof.
  induction evs as [|a rest IH]; intros ls Hnd; cbn [fold_left].
  - split; [assumption|]. intros y. cbn. now rewrite andb_true_r.
  - destruct (remove_or_pass a Hnd) as [Hnd' Hstep].
    destruct (IH _ Hnd') as [Hfinal Hkeys]. split; [assumption|].
    intros y. rewrite Hkeys, Hstep.
    change (holds (a :: rest) y) with (args_eqb a y || holds rest y).
    now rewrite negb_orb, andb_assoc.
Qed.

(** X13: [sqla_remove_all] empties the record, whatever was removed
    before, and leaves in SQLAlchemy's registry, which holds each key once,
    the keys it held that were not recorded: a recorded key is given up,
    also when it was recorded more than once or removed already. *)
Theorem sqla_remove_all_removes_recorded (r : registry)
  (y : list listen_arg) :
  NoDup (listeners r) ->
  _REGISTERED_SQLA_EVENTS (sqla_remove_all r) = [] /\
  NoDup (listeners (sqla_remove_all r)) /\
  holds (listeners (sqla_remove_all r)) y
  = holds (listeners r) y && negb (holds (_REGISTERED_SQLA_EVENTS r) y).
Proof.
  intros Hnd. split; [reflexivity|]. unfold sqla_remove_all. cbn [listeners].
  destruct (remove_each_keys (_REGISTERED_SQLA_EVENTS r) Hnd) as [H1 H2].
  split; [exact H1 | apply H2].
Qed.

Lemma sqla_remove_all_removes_recorded_witness :
  holds
    (listeners
       (sqla_remove_all
          (Registry [after_flush_subscription;
                     [ARef 1; AName "before_commit"; ARef 3]]
                    [after_flush_subscription; after_flush_subscription;
                     [ARef 1; AName "after_commit"; ARef 4]])))
    after_flush_subscription = false.
Proof.
  destruct (@sqla_remove_all_removes_recorded
              (Registry [after_flush_subscription;
                         [ARef 1; AName "before_commit"; ARef 3]]
                        [after_flush_subscription; after_flush_subscription;
                         [ARef 1; AName "after_commit"; ARef 4]])
              after_flush_subscription) as (_ & _ & Hkeys).
  - cbn. constructor.
    + intros [H|[]]. discriminate H.
    + constructor; [intros []|constructor].
  - rewrite Hkeys. reflexivity.
Defined.

(** A subscription made twice through [sqla_listen] is recorded twice and
    its key held once; teardown gives the key up. *)
Example teardown_after_listening_twice :
  sqla_listen after_flush_subscription
    (sqla_listen after_flush_subscription (Registry [] []))
  = Registry [after_flush_subscription]
             [after_flush_subscription; after_flush_subscription] /\
  sqla_remove_all
    (sqla_listen after_flush_subscription
       (sqla_listen after_flush_subscription (Registry [] [])))
  = Registry [] [].
Proof. split; reflexivity. Qed.

(* ===================================================================== *)
(** * Further properties of the relationship loader *)
(* ===================================================================== *)

Lemma NoDup_snoc (x : nat) l : NoDup l -> ~ In x l -> NoDup (l ++ [x]).
Proof.
  induction 1 as [|y l Hy Hl IH]; cbn; intros Hx.
  - constructor; [tauto|constructor].
  - constructor.
    + rewrite in_app_iff. cbn. intros [H|[H|[]]]; [tauto|]. subst. tauto.
    + apply IH. tauto.
Qed.

Lemma set_update_NoDup items : forall s, NoDup s -> NoDup (set_update s items).
Proof.
  unfold set_update. induction items as [|x rest IH]; intros s Hs; cbn; auto.
  apply IH. destruct (mem_nat x s) eqn:E; [assumption|].
  apply NoDup_snoc; [assumption|]. intros H. apply mem_nat_In in H. congruence.
Qed.

Lemma set_update_present items :
  forall s, (forall x, In x items -> In x s) -> set_update s items = s.
Proof.
  unfold set_update. induction items as [|x rest IH]; intros s H; cbn; auto.
  assert (E : mem_nat x s = true) by (apply mem_nat_In, H; now left).
  rewrite E. apply IH. intros y Hy. apply H. now right.
Qed.

(** X14: the after_flush listener keeps the captured objects a set: it adds
    the pending objects to those captured before, none of them twice, and
    running it again on the same pending objects changes nothing. *)
Theorem add_to_rel_load_list_is_a_set_update (s : session) :
  NoDup (captured s) ->
  NoDup (captured (_add_to_rel_load_list s)) /\
  (forall o, In o (captured (_add_to_rel_load_list s))
             <-> In o (captured s) \/ In o (new s)) /\
  _add_to_rel_load_list (_add_to_rel_load_list s) = _add_to_rel_load_list s.
Proof.
  intros Hs. unfold _add_to_rel_load_list, captured in *.
  cbn [_load_rels new contents nested relationships state_dict
       loading_enabled loads].
  split; [now apply set_update_NoDup|]. split; [intros o; apply set_update_In|].
  f_equal. f_equal. apply set_update_present.
  intros x Hx. apply set_update_In. now right.
Qed.

Lemma add_to_rel_load_list_is_a_set_update_witness :
  captured (_add_to_rel_load_list
              (Session [2; 3; 2] [1; 2; 3] false (Some [1; 2])
                 (fun _ => port_relationships) (fun _ => []) [] []))
  = [1; 2; 3] /\
  NoDup (captured (_add_to_rel_load_list
                     (Session [2; 3; 2] [1; 2; 3] false (Some [1; 2])
                        (fun _ => port_relationships) (fun _ => []) [] []))).
Proof.
  split; [reflexivity|].
  apply add_to_rel_load_list_is_a_set_update.
  cbn. repeat constructor; cbn; intuition discriminate.
Defined.

Lemma before_commit_flush_new s : new (before_commit_flush s) = [].
Proof.
  unfold before_commit_flush. now destruct (new s) eqn:E.
Qed.

Lemma before_commit_flush_flushed s : new s = [] -> before_commit_flush s = s.
Proof. unfold before_commit_flush. now intros ->. Qed.

(** X15: with nothing pending and nothing captured (no ['_load_rels']
    entry, or an empty one) the hook returns without forcing a load: on a
    nested transaction the session is as it was, otherwise it has lost the
    ['_load_rels'] entry and nothing else. *)
Theorem load_one_to_manys_nothing_to_load
  (lazy_load : nat -> string -> session -> bool) (s : session) :
  new s = [] ->
  captured s = [] ->
  _load_one_to_manys lazy_load s
  = (Return tt, if nested s then s else snd (pop_load_rels s)).
Proof.
  intros Hnew Hcap.
  rewrite _load_one_to_manys_eq, (before_commit_flush_flushed _ Hnew), Hcap.
  now destruct (nested s).
Qed.

Lemma load_one_to_manys_nothing_to_load_witness :
  _load_one_to_manys loads_none
    (Session [] [1] false (Some []) (fun _ => port_relationships)
       (fun _ => []) [] [])
  = (Return tt,
     Session [] [1] false None (fun _ => port_relationships)
       (fun _ => []) [] []).
Proof.
  exact (@load_one_to_manys_nothing_to_load loads_none
           (Session [] [1] false (Some []) (fun _ => port_relationships)
              (fun _ => []) [] [])
           eq_refl eq_refl).
Defined.

(** A loader that populates nothing aborts the commit at the first eager
    relationship. *)
Example aborted_commit :
  fst (_load_one_to_manys loads_none committing_session)
  = Raise (new_exn "AssertionError"
             "Relationship fixed_ips attributes must be loaded in db object").
Proof. reflexivity. Qed.

Lemma captured_before_commit_flush s o :
  In o (captured s) \/ In o (new s) -> In o (captured (before_commit_flush s)).
Proof.
  unfold before_commit_flush. destruct (new s) as [|x rest] eqn:Hnew.
  - intros [H|[]]. exact H.
  - unfold captured at 2. cbn. rewrite Hnew. intros H.
    apply set_update_In. exact H.
Qed.

(** On a transaction that is not nested, a hook that returns has populated
    every eager relationship of every captured object of the session. *)
Lemma commit_populates lazy_load s o rel :
  nested s = false ->
  fst (_load_one_to_manys lazy_load s) = Return tt ->
  In o (captured (before_commit_flush s)) ->
  mem_nat o (contents s) = true ->
  In rel (relationships s o) -> eager rel = true ->
  mem_str (key rel) (state_dict (snd (_load_one_to_manys lazy_load s)) o) = true.
Proof.
  destruct (before_commit_flush_frame s) as (Hc & Hn & Hr & _).
  rewrite _load_one_to_manys_eq, Hn. intros -> Hret Ho Hin Hrel He.
  destruct (load_objects_spec lazy_load (captured (before_commit_flush s))
              (snd (pop_load_rels (before_commit_flush s)))) as (_ & Hend).
  destruct Hend as [[_ Hpop] | (e & o' & rel' & Hr' & _)]; [|congruence].
  apply Hpop; auto.
  - change (mem_nat o (contents (before_commit_flush s)) = true).
    now rewrite Hc.
  - change (In rel (relationships (before_commit_flush s) o)).
    now rewrite Hr.
Qed.

(** X16: what a nested commit leaves undone, the commit of the
    transaction around it does.  The hook run inside a savepoint loads
    nothing and keeps what is captured; when it is run again as the outer
    transaction commits and returns, every eager relationship of the
    objects that were pending or captured inside the savepoint, and are in
    the session, is populated. *)
Theorem nested_commit_defers_loading
  (lazy_load lazy_load' : nat -> string -> session -> bool) (s : session)
  (o : nat) (rel : relationship) :
  nested s = true ->
  In o (new s) \/ In o (captured s) ->
  mem_nat o (contents s) = true ->
  In rel (relationships s o) -> eager rel = true ->
  fst (_load_one_to_manys lazy_load'
         (outer_commit (snd (_load_one_to_manys lazy_load s)))) = Return tt ->
  loads (snd (_load_one_to_manys lazy_load s)) = loads s /\
  state_dict (snd (_load_one_to_manys lazy_load s)) = state_dict s /\
  mem_str (key rel)
    (state_dict
       (snd (_load_one_to_manys lazy_load'
               (outer_commit (snd (_load_one_to_manys lazy_load s))))) o)
  = true.
Proof.
  intros Hnested Ho Hin Hrel He.
  destruct (before_commit_flush_frame s) as (Hc & Hn & Hr & Hd & Hl & _).
  rewrite (_load_one_to_manys_eq lazy_load s), Hn, Hnested. cbn [snd].
  intros Hret. split; [exact Hl|]. split; [exact Hd|].
  set (s2 := outer_commit (before_commit_flush s)) in *.
  assert (Hflushed : before_commit_flush s2 = s2).
  { apply before_commit_flush_flushed. apply before_commit_flush_new. }
  apply commit_populates; auto.
  - rewrite Hflushed.
    change (In o (captured (before_commit_flush s))).
    apply captured_before_commit_flush. tauto.
  - change (mem_nat o (contents (before_commit_flush s)) = true).
    now rewrite Hc.
  - change (In rel (relationships (before_commit_flush s) o)).
    now rewrite Hr.
Qed.

Lemma nested_commit_defers_loading_witness :
  state_dict (snd (_load_one_to_manys loads_all savepoint_session)) 1 = [] /\
  mem_str "fixed_ips"
    (state_dict
       (snd (_load_one_to_manys loads_all
               (outer_commit (snd (_load_one_to_manys loads_all
                                     savepoint_session))))) 1) = true.
Proof.
  split; [reflexivity|].
  apply (@nested_commit_defers_loading loads_all loads_all savepoint_session 1
           (Relationship "fixed_ips" "joined")).
  - reflexivity.
  - left. cbn. auto.
  - reflexivity.
  - cbn. auto.
  - reflexivity.
  - reflexivity.
Defined.

(* ===================================================================== *)
(** * Further properties of the accessors *)
(* ===================================================================== *)

(** Under the lock the constructor checks again: it does what the
    accessor does. *)
Lemma _create_context_manager_eq f :
  _create_context_manager f = get_context_manager f.
Proof.
  unfold get_context_manager, _create_context_manager.
  now destruct (_CTX_MANAGER f).
Qed.

Lemma get_context_manager_again f :
  get_context_manager (snd (get_context_manager f)) = get_context_manager f.
Proof.
  rewrite (get_context_manager_set _ (get_context_manager_sets f)).
  now destruct (get_context_manager f).
Qed.

Lemma run_accessor_step c s :
  facade_state (run_accessor c s) = snd (get_context_manager (facade_state s)) /\
  sessions (run_accessor c s)
  = sessions s ++
    map (fun side => (fst (get_context_manager (facade_state s)), side))
        (session_calls [c]).
Proof.
  destruct c; cbn [run_accessor session_calls flat_map map app];
    unfold get_reader_session, get_writer_session, get_session;
    rewrite ?_create_context_manager_eq;
    destruct (get_context_manager (facade_state s)) as [m f];
    cbn [fst snd facade_state sessions]; rewrite ?app_nil_r; auto.
Qed.

Lemma session_calls_cons c calls :
  session_calls (c :: calls) = session_calls [c] ++ session_calls calls.
Proof. unfold session_calls. cbn [flat_map]. now rewrite app_nil_r. Qed.

(** X17: however calls of the accessors follow one another, they share one
    manager: the module is left as the first call left it, with no second
    manager constructed or configured, and every session made comes from
    that manager, one for each call of a session accessor, in their order
    and from the side asked for. *)
Theorem accessors_share_one_manager (calls : list accessor_call) (s : db_api) :
  facade_state (run_accessors calls s)
  = match calls with
    | [] => facade_state s
    | _ => snd (get_context_manager (facade_state s))
    end /\
  sessions (run_accessors calls s)
  = sessions s ++
    map (fun side => (fst (get_context_manager (facade_state s)), side))
        (session_calls calls).
Proof.
  revert s. induction calls as [|c rest IH]; intros s.
  - cbn. now rewrite app_nil_r.
  - change (run_accessors (c :: rest) s)
      with (run_accessors rest (run_accessor c s)).
    destruct (IH (run_accessor c s)) as [Hf Hs].
    destruct (run_accessor_step c s) as [Hf1 Hs1].
    rewrite Hf, Hs, Hf1, Hs1, get_context_manager_again. split.
    + now destruct rest.
    + rewrite (session_calls_cons c rest), map_app, app_assoc. reflexivity.
Qed.

Example accessors_from_import :
  run_accessors
    [call_get_reader_session; call_get_context_manager;
     call_get_writer_session; call_create_context_manager;
     call_get_reader_session] db_api_at_import
  = DbApi (Facade (Some 0) 1 [(0, context_manager_config)])
          [(0, reader); (0, writer); (0, reader)].
Proof. reflexivity. Qed.

(* ===================================================================== *)
(** * Further properties across the decorators *)
(* ===================================================================== *)

(** X18: the classifier has no false positive: what [_is_nested_instance]
    accepts is an instance of the kinds, or wraps one through the inner
    exceptions of aggregates and the inner causes of database errors. *)
Theorem nested_instance_only_through_containers (e : exn)
  (etypes : list pyclass) :
  _is_nested_instance e etypes = true -> wraps etypes e.
Proof. apply nested_instance_wraps. Qed.

Lemma nested_instance_only_through_containers_witness :
  wraps RETRIABLE_KINDS nested_stale_data /\
  _is_nested_instance
    (Exn ["ValueError"] "" None [] None (Some nested_stale_data))
    RETRIABLE_KINDS = false.
Proof.
  split; [|reflexivity].
  apply nested_instance_only_through_containers. reflexivity.
Defined.

(** X19: a gated call made with a session that is not active never lets
    out an exception the classifier would accept: what it raises has been
    through the tagger. *)
Theorem gated_inactive_raises_unretriable (U : Type)
  (context_var_name : string) (f : pyfunction U) (wrapped : pyfun U)
  (args : list pyval) (kwargs : list (string * pyval)) (w w' : world U)
  (context : pyval) (e : exn) :
  retry_if_session_inactive context_var_name f = inr wrapped ->
  context_argument context_var_name f args kwargs = Some context ->
  session_is_active w context = Some false ->
  wrapped args kwargs w = (Raise e, w') ->
  is_retriable e = false.
Proof.
  unfold retry_if_session_inactive, context_argument.
  destruct (list_index context_var_name (argnames f)) as [i|]; [|discriminate].
  intros [= <-] Hctx Hactive. rewrite Hctx, Hactive.
  unfold retry_db_errors. apply tagged_not_retriable.
Qed.

Lemma gated_inactive_raises_unretriable_witness :
  is_retriable (new_exn "ValueError" "bad value with 1305 in it") = false.
Proof.
  destruct (retry_if_session_inactive "context" reject_port)
    as [e|wrapped] eqn:Hdec; [discriminate Hdec|].
  apply (@gated_inactive_raises_unretriable unit "context" reject_port
           wrapped [VObj 9; VObj 0] [] (World 1 [] [] tt) (World 1 [] [] tt)
           (VObj 0) _ Hdec eq_refl eq_refl).
  injection Hdec as <-. reflexivity.
Defined.

Lemma dup_args_no_containers args :
  forallb (fun a => negb (is_lds a)) args = true ->
  forall n, dup_args args n = (args, n).
Proof.
  induction args as [|a rest IH]; cbn [forallb dup_args]; [reflexivity|].
  intros H n. apply andb_true_iff in H as [Ha Hrest].
  unfold _copy_if_lds. apply negb_true_iff in Ha. rewrite Ha.
  now rewrite (IH Hrest).
Qed.

Lemma dup_kwargs_no_containers kwargs :
  forallb (fun kv : string * pyval => negb (is_lds (snd kv))) kwargs = true ->
  forall n, dup_kwargs kwargs n = (kwargs, n).
Proof.
  induction kwargs as [|[k a] rest IH]; cbn [forallb dup_kwargs snd];
    [reflexivity|].
  intros H n. apply andb_true_iff in H as [Ha Hrest].
  unfold _copy_if_lds. apply negb_true_iff in Ha. rewrite Ha.
  now rewrite (IH Hrest).
Qed.

(** X20: a call with no list, dict or set among its arguments reaches the
    unit of work as it was made: the same arguments in the same world,
    nothing copied and nothing allocated. *)
Theorem call_without_containers_is_passed_on (U : Type) (f : pyfun U)
  (args : list pyval) (kwargs : list (string * pyval)) (w : world U) :
  forallb (fun a => negb (is_lds a)) args = true ->
  forallb (fun kv : string * pyval => negb (is_lds (snd kv))) kwargs = true ->
  wrapped_with_copies f args kwargs w = log_retriable (f args kwargs w).
Proof.
  intros Ha Hk. unfold wrapped_with_copies.
  rewrite (dup_args_no_containers _ Ha), (dup_kwargs_no_containers _ Hk).
  now destruct w.
Qed.

Lemma call_without_containers_is_passed_on_witness :
  wrapped_with_copies recording [VObj 0; VTuple [VList 1 []]; VStr "port"]
    [("limit", VInt 10)] (World 2 [] [] [])
  = log_retriable
      (recording [VObj 0; VTuple [VList 1 []]; VStr "port"]
         [("limit", VInt 10)] (World 2 [] [] [])).
Proof.
  apply call_without_containers_is_passed_on; reflexivity.
Defined.
